(** * SmartMeterBlock: the measurement-to-telemetry block of smart-meter-ai

    A shallow embedding of [src/simulation/SmartMeterBlock.m] and the
    properties of its tick ([stepImpl]), its connection handling
    ([setupImpl], [sendToTelegraf], [releaseImpl]), its reset ([resetImpl]),
    its encoders ([buildLineProtocolInflux], [buildDLMSPayload],
    [hmacSha256Hex]) and its waveform analysis.

    Conventions of the embedding.
    - MATLAB doubles that carry measurements are real numbers ([R]); the
      block's numeric configuration (sampling rate, nominal frequency, send
      interval) is rational ([Q]), so that the fundamental bin and the send
      gate compute.  Rounding of IEEE arithmetic is outside the model.
    - A [datetime] is an instant, in nanoseconds since the epoch on the UTC
      time line, together with its TimeZone attribute, which is empty for
      [datetime(1970,1,1)] and 'UTC' for [datetime('now','TimeZone','UTC')].
      MATLAB subtracts two datetimes only when both or neither have a time
      zone; the theorems on the tick are stated for every platform, those
      that would subtract them all the same included.
    - The counter [SampleCount] is an unbounded integer.
    - The block is a handle object: its private properties are a record that
      every method threads, and an assignment made before an error is raised
      stays made.
    - What the block prints ([disp], [warning]) and writes to the transport
      is recorded, in order, in a log of events. *)

From Stdlib Require Import ZArith QArith Qround Reals Lia Lra.
From Stdlib Require Import List String Ascii Bool.
From Stdlib Require Import Strings.Byte Numbers.DecimalString.
Import ListNotations.

Local Open Scope string_scope.
Local Open Scope Z_scope.

(** ** MATLAB values and errors *)

Module Matlab.

(** An error object, as [error(msg)] raises and [catch ME] receives. *)
Inductive MException : Type := ME (message : string).

Definition message (e : MException) : string := let 'ME m := e in m.

(** The outcome of a call that may raise. *)
Inductive result (A : Type) : Type :=
| Ok (a : A)
| Raise (e : MException).
Arguments Ok {A} a.
Arguments Raise {A} e.

(** The values that reach the encoders: real arrays (a scalar is an array of
    one element), the scalar NaN, char arrays, int64 scalars and structs with
    their fields in order. *)
#[warnings="-register-all"]
Inductive mvalue : Type :=
| MReal (xs : list R)
| MNaN
| MChar (s : string)
| MInt64 (z : Z)
| MStruct (fields : list (string * mvalue)).

(** [round]: to the nearest integer, ties away from zero. *)
Definition round (q : Q) : Z :=
  if Qle_bool 0 q then Qfloor (q + (1 # 2)) else - Qfloor (- q + (1 # 2)).

(** [int64(x)]: saturating conversion. *)
Definition int64 (z : Z) : Z := Z.max (- 2 ^ 63) (Z.min z (2 ^ 63 - 1)).

(** [strcmp] and [strcmpi] on char arrays. *)
Definition strcmp (a b : string) : bool := String.eqb a b.

Definition lower_char (c : ascii) : ascii :=
  let n := nat_of_ascii c in
  if (65 <=? n)%nat && (n <=? 90)%nat then ascii_of_nat (n + 32) else c.

Fixpoint lower (s : string) : string :=
  match s with
  | EmptyString => EmptyString
  | String c s' => String (lower_char c) (lower s')
  end.

Definition strcmpi (a b : string) : bool := String.eqb (lower a) (lower b).

Definition isempty_char (s : string) : bool :=
  match s with EmptyString => true | _ => false end.

(** [uint8(str)]: the bytes of a char array. *)
Definition uint8 (s : string) : list byte := list_byte_of_string s.

(** [num2str] of a non-negative integer. *)
Definition num2str (z : Z) : string :=
  NilEmpty.string_of_int (Z.to_int z).

(** [dec2hex] on a uint8 array: one row of upper-case digits per element,
    every row as wide as the largest element needs. *)
Definition hexdigit (d : N) : ascii :=
  nth (N.to_nat d)
      ["0"; "1"; "2"; "3"; "4"; "5"; "6"; "7"; "8"; "9";
       "A"; "B"; "C"; "D"; "E"; "F"]%char "0"%char.

Definition dec2hex_width (out : list byte) : nat :=
  if existsb (fun b => (16 <=? Byte.to_N b)%N) out then 2%nat else 1%nat.

Definition dec2hex_row (w : nat) (b : byte) : list ascii :=
  let n := Byte.to_N b in
  match w with
  | 2%nat => [hexdigit (n / 16); hexdigit (n mod 16)]
  | _ => [hexdigit n]
  end.

Definition dec2hex (out : list byte) : list (list ascii) :=
  map (dec2hex_row (dec2hex_width out)) out.

(** Complex doubles. *)
Record complex : Type := Cplx { real : R; imag : R }.

Definition Cadd (a b : complex) : complex :=
  Cplx (real a + real b)%R (imag a + imag b)%R.
Definition Cmul (a b : complex) : complex :=
  Cplx (real a * real b - imag a * imag b)%R
       (real a * imag b + imag a * real b)%R.
Definition Cscale (x : R) (a : complex) : complex :=
  Cplx (x * real a)%R (x * imag a)%R.
Definition conj (a : complex) : complex := Cplx (real a) (- imag a)%R.
Definition Cabs (a : complex) : R := sqrt (real a * real a + imag a * imag a)%R.

(** [sum], [mean], [.*] and [.^2] on real vectors. *)
Definition sum (xs : list R) : R := fold_right Rplus 0%R xs.
Definition mean (xs : list R) : R := (sum xs / INR (List.length xs))%R.

Fixpoint times (xs ys : list R) : list R :=
  match xs, ys with
  | x :: xs', y :: ys' => (x * y)%R :: times xs' ys'
  | _, _ => []
  end.

Definition sq (xs : list R) : list R := map (fun x => (x * x)%R) xs.

(** [hann(N)]: the symmetric Hann window; [hann(1)] is 1. *)
Definition hann (N : nat) : list R :=
  match N with
  | 1%nat => [1%R]
  | _ => map (fun n => (0.5 * (1 - cos (2 * PI * INR n / INR (N - 1))))%R)
             (seq 0 N)
  end.

(** [fft(x)]: bin k (zero-based) is sum over n of x[n] * exp(-j*2*pi*k*n/N). *)
Definition twiddle (N k n : nat) : complex :=
  let a := (2 * PI * INR k * INR n / INR N)%R in
  Cplx (cos a) (- sin a)%R.

Definition dft_bin (x : list R) (k : nat) : complex :=
  fold_right Cadd (Cplx 0%R 0%R)
    (map (fun p => Cscale (snd p) (twiddle (List.length x) k (fst p)))
         (combine (seq 0 (List.length x)) x)).

Definition fft (x : list R) : list complex :=
  map (dft_bin x) (seq 0 (List.length x)).

End Matlab.
Import Matlab.

(** ** The platform

    Builtins whose results the block only passes on: text formatting, JSON
    serialisation, the validity of struct field names and the JVM's
    HMAC-SHA256; and whether the platform subtracts a datetime without a
    time zone from one with a time zone, which MATLAB does not.  Every
    theorem holds for every platform. *)

Class Platform : Type := {
  sprintf : string -> list mvalue -> string;
  jsonencode : mvalue -> string;
  isvarname : string -> bool;
  HmacSHA256 : list byte -> list byte -> result (list byte);
  combines_zones : bool
}.

(** [struct(name1, value1, ...)]: raises on a field name that is not valid. *)
Definition struct `{Platform} (fields : list (string * mvalue)) : result mvalue :=
  match find (fun f => negb (isvarname (fst f))) fields with
  | Some f => Raise (ME ("Invalid field name: " ++ fst f))
  | None => Ok (MStruct fields)
  end.

(** [isempty]: a struct built by [struct] or by field assignment is 1-by-1. *)
Definition isempty (v : mvalue) : bool :=
  match v with
  | MReal [] => true
  | MChar EmptyString => true
  | _ => false
  end.

(** ** Properties of the block *)

(** [properties (Nontunable)], with the defaults of the class. *)
Record Nontunable : Type := {
  MeterId : string;
  NodeType : string;
  TelegrafHost : string;
  TelegrafPort : Z;
  TransportProtocol : string;
  SendInterval : Q;
  CommunicationFormat : string;
  UseWaveformInput : bool;
  SamplingRate : Q;
  FundamentalFreq : Q;
  HMACKey : string;
  TimeSync : string
}.

Definition defaults : Nontunable := {|
  MeterId := "METER_001";
  NodeType := "consumer";
  TelegrafHost := "localhost";
  TelegrafPort := 8094;
  TransportProtocol := "tcp";
  SendInterval := 1;
  CommunicationFormat := "influx";
  UseWaveformInput := true;
  SamplingRate := 4800;
  FundamentalFreq := 50;
  HMACKey := "";
  TimeSync := "none"
|}.

(** The transport objects [tcpclient(host, port, ...)] and
    [udpport("datagram", "LocalPort", 0)]. *)
Inductive client : Type :=
| tcpclient (host : string) (port : Z)
| udpport (localPort : Z).

(** A datetime: its instant, in nanoseconds since the epoch on the UTC time
    line, and its TimeZone attribute, empty when the datetime is unzoned. *)
Record datetime : Type := { instant : Z; TimeZone : string }.

(** [datetime(1970,1,1)]. *)
Definition epoch : datetime := {| instant := 0; TimeZone := "" |}.

(** [datetime('now','TimeZone','UTC')] when the clock reads [t]. *)
Definition utc (t : Z) : datetime := {| instant := t; TimeZone := "UTC" |}.

Definition zoned (t : datetime) : bool := negb (isempty_char (TimeZone t)).

(** The error MATLAB raises when a zoned and an unzoned datetime meet. *)
Definition incompatible_zones : MException :=
  ME "Cannot combine or compare a datetime array with a time zone with one without a time zone.".

(** [a - b], in nanoseconds.  On MATLAB a zoned and an unzoned datetime do
    not subtract. *)
Definition minus `{Platform} (a b : datetime) : result Z :=
  if Bool.eqb (zoned a) (zoned b) || combines_zones
  then Ok (instant a - instant b)
  else Raise incompatible_zones.

(** [seconds(d)]. *)
Definition seconds (d : Z) : Q := inject_Z d / 1000000000.

(** [int64(posixtime(t) * 1e9)]. *)
Definition posix_ns (t : datetime) : Z := int64 (instant t).

(** [properties (Access = private)]; [TcpClient = []] is [None]. *)
Record Private : Type := {
  TcpClient : option client;
  LastSendTime : datetime;
  SampleCount : Z;
  IsConnected : bool
}.

Definition constructed : Private := {|
  TcpClient := None;
  LastSendTime := epoch;
  SampleCount := 0;
  IsConnected := false
|}.

Definition set_TcpClient (c : option client) (o : Private) : Private :=
  {| TcpClient := c; LastSendTime := LastSendTime o;
     SampleCount := SampleCount o; IsConnected := IsConnected o |}.
Definition set_LastSendTime (t : datetime) (o : Private) : Private :=
  {| TcpClient := TcpClient o; LastSendTime := t;
     SampleCount := SampleCount o; IsConnected := IsConnected o |}.
Definition set_SampleCount (n : Z) (o : Private) : Private :=
  {| TcpClient := TcpClient o; LastSendTime := LastSendTime o;
     SampleCount := n; IsConnected := IsConnected o |}.
Definition set_IsConnected (b : bool) (o : Private) : Private :=
  {| TcpClient := TcpClient o; LastSendTime := LastSendTime o;
     SampleCount := SampleCount o; IsConnected := b |}.

(** ** Effects *)

(** What a method does to the outside, in order. *)
Inductive event : Type :=
| disp (text : string)
| warning (text : string)
| system (command : string)
| write (c : client) (data : list byte) (dest : option (string * Z)).

(** The object and the log so far. *)
Definition world : Type := (Private * list event)%type.

(** A method body: it runs on a world, returns or raises, and leaves a world. *)
Definition M (A : Type) : Type := world -> result A * world.

Definition ret {A} (a : A) : M A := fun w => (Ok a, w).

Definition bind {A B} (c : M A) (k : A -> M B) : M B :=
  fun w =>
    match c w with
    | (Ok a, w') => k a w'
    | (Raise e, w') => (Raise e, w')
    end.

Definition error {A} (msg : string) : M A := fun w => (Raise (ME msg), w).

(** [try c catch ME, h(ME) end]. *)
Definition try_catch {A} (c : M A) (h : MException -> M A) : M A :=
  fun w =>
    match c w with
    | (Ok a, w') => (Ok a, w')
    | (Raise e, w') => h e w'
    end.

Definition lift {A} (r : result A) : M A := fun w => (r, w).

Definition emit (e : event) : M unit := fun w => (Ok tt, (fst w, (snd w ++ [e])%list)).

Definition obj : M Private := fun w => (Ok (fst w), w).

Definition assign (f : Private -> Private) : M unit :=
  fun w => (Ok tt, (f (fst w), snd w)).

Declare Scope meth_scope.
Delimit Scope meth_scope with meth.
Notation "x <- c ;; k" := (bind c (fun x => k))
  (at level 61, c at next level, right associativity) : meth_scope.
Notation "c ;; k" := (bind c (fun _ => k))
  (at level 61, right associativity) : meth_scope.
Local Open Scope meth_scope.

(** ** The block's methods *)

Section Block.

Context `{Platform}.
Variable cfg : Nontunable.

(** What one call of a method finds outside: the clock, and whether the
    transport write, the connection or the system call raises. *)
Record Env : Type := {
  clock : Z;
  write_fault : option MException;
  connect_fault : option MException;
  system_fault : option MException
}.

(** Line 76. *)
Definition nowUtc (env : Env) : datetime := utc (clock env).

(** Indexing, [xs(k)] and [c{k}], one-based. *)
Definition index {A} (xs : list A) (k : Z) : result A :=
  if k <? 1 then
    Raise (ME "Array indices must be positive integers or logical values.")
  else
    match nth_error xs (Z.to_nat (k - 1)) with
    | Some x => Ok x
    | None => Raise (ME "Index exceeds the number of array elements.")
    end.

(** *** Waveform analysis: lines 83-151 of [stepImpl] *)

Definition InvalidWindow : MException :=
  ME "Waveform inputs must be non-empty vectors of equal length.".

(** Lines 87-89. *)
Definition validate (voltageSamples currentSamples : list R) : result unit :=
  if match voltageSamples with [] => true | _ => false end
     || match currentSamples with [] => true | _ => false end
     || negb (List.length voltageSamples =? List.length currentSamples)%nat
  then Raise InvalidWindow
  else Ok tt.

(** Lines 111 and 116-118.  [None] stands for a bin that is not a number
    (the sampling rate is zero). *)
Definition kFund (N : nat) : option Z :=
  let fs := SamplingRate cfg in
  if Qeq_bool fs 0 then None
  else
    let k := round (FundamentalFreq cfg * inject_Z (Z.of_nat N) / fs) + 1 in
    Some (if Z.of_nat N <? k then (k - 1) mod Z.of_nat N + 1 else k).

Definition bin {A} (X_fft : list A) (k : option Z) : result A :=
  match k with
  | None => Raise (ME "Array indices must be positive integers or logical values.")
  | Some k => index X_fft k
  end.

(** The local variables of the waveform branch. *)
Record Waveform : Type := {
  wN : nat;
  Vrms : R;
  Irms : R;
  P_inst : R;
  wkFund : option Z;
  V1 : complex;
  I1 : complex;
  S_fund : R;
  Vrms_fund : R;
  Irms_fund : R;
  S : R;
  P_fund : R;
  Q_fund : R
}.

Definition analyze (voltageSamples currentSamples : list R) : result Waveform :=
  match validate voltageSamples currentSamples with
  | Raise e => Raise e
  | Ok _ =>
    let N := List.length voltageSamples in
    let w := hann N in
    let v_w := times voltageSamples w in
    let i_w := times currentSamples w in
    let k := kFund N in
    let V_fft := fft v_w in
    let I_fft := fft i_w in
    match bin V_fft k with
    | Raise e => Raise e
    | Ok V1 =>
      match bin I_fft k with
      | Raise e => Raise e
      | Ok I1 =>
        let n := INR N in
        let Vrms_fund := (Cabs V1 / n / sqrt 2)%R in
        let Irms_fund := (Cabs I1 / n / sqrt 2)%R in
        Ok {| wN := N;
              Vrms := sqrt (mean (sq v_w));
              Irms := sqrt (mean (sq i_w));
              P_inst := mean (times v_w i_w);
              wkFund := k;
              V1 := V1;
              I1 := I1;
              S_fund := (Cabs V1 * Cabs I1 / n ^ 2)%R;
              Vrms_fund := Vrms_fund;
              Irms_fund := Irms_fund;
              S := (Vrms_fund * Irms_fund)%R;
              P_fund := (real (Cmul V1 (conj I1)) / n ^ 2)%R;
              Q_fund := (imag (Cmul V1 (conj I1)) / n ^ 2)%R |}
      end
    end
  end.

(** The quantities both branches hand to the encoders. *)
Record Measurement : Type := {
  pActive : mvalue;
  pReactive : mvalue;
  voltage : mvalue;
  current : mvalue;
  frequency : mvalue;
  timeOfUse : mvalue;
  energyKwh : mvalue;
  maxDemandKw : mvalue;
  costValue : mvalue;
  meta : mvalue
}.

(** Lines 135-151. *)
Definition compose (a : Waveform) : Measurement := {|
  pActive := MReal [P_inst a];
  pReactive := MReal [Q_fund a];
  voltage := MReal [Vrms a];
  current := MReal [Irms a];
  frequency := MReal [Q2R (FundamentalFreq cfg)];
  timeOfUse := MChar "";
  energyKwh := MNaN;
  maxDemandKw := MNaN;
  costValue := MNaN;
  meta := MStruct [("Vrms_fund", MReal [Vrms_fund a]);
                   ("Irms_fund", MReal [Irms_fund a]);
                   ("P_fund", MReal [P_fund a]);
                   ("Q_fund", MReal [Q_fund a]);
                   ("S", MReal [S a]);
                   ("N", MReal [INR (wN a)])]
|}.

(** Lines 81-168: the inputs of the tick become a measurement. *)
Definition measure (varargin : list (list R)) : result Measurement :=
  if UseWaveformInput cfg then
    match index varargin 1 with
    | Raise e => Raise e
    | Ok voltageSamples =>
      match index varargin 2 with
      | Raise e => Raise e
      | Ok currentSamples =>
        match analyze voltageSamples currentSamples with
        | Raise e => Raise e
        | Ok a => Ok (compose a)
        end
      end
    end
  else
    match varargin with
    | a1 :: a2 :: a3 :: a4 :: a5 :: a6 :: a7 :: a8 :: a9 :: _ =>
      Ok {| pActive := MReal a1; pReactive := MReal a2; voltage := MReal a3;
            current := MReal a4; frequency := MReal a5; timeOfUse := MReal a6;
            energyKwh := MReal a7; maxDemandKw := MReal a8;
            costValue := MReal a9; meta := MStruct [] |}
    | _ => Raise (ME "Expected 9 inputs when UseWaveformInput is false.")
    end.

(** *** Encoders *)

Definition buildLineProtocolInflux
    (pActive pReactive voltage current frequency timeOfUse
     energyKwh maxDemandKw costValue : mvalue) (timestamp_ns : Z) : string :=
  let realtimeMsg :=
    sprintf "realtime_readings p_active=%.6f,p_reactive=%.6f,voltage=%.6f,current=%.6f,frequency=%.6f %d"
            [pActive; pReactive; voltage; current; frequency; MInt64 timestamp_ns] in
  let aggregatedMsg :=
    sprintf "aggregated_usage energy_kwh=%.6f,max_demand_kw=%.6f %d"
            [energyKwh; maxDemandKw; MInt64 timestamp_ns] in
  let costMsg :=
    sprintf "meter_cost total_cost=%.6f %d" [costValue; MInt64 timestamp_ns] in
  sprintf "%s\n%s\n%s\n" [MChar realtimeMsg; MChar aggregatedMsg; MChar costMsg].

Definition buildDLMSPayload
    (pActive pReactive voltage current frequency timeOfUse
     energyKwh maxDemandKw costValue : mvalue) (timestamp_ns : Z)
    (meta : mvalue) : result mvalue :=
  match struct [("1-0:1.8.0", energyKwh);
                ("1-0:2.8.0", MNaN);
                ("1-0:16.7.0", pActive);
                ("1-0:3.7.0", pReactive);
                ("1-0:32.7.0", voltage);
                ("1-0:31.7.0", current);
                ("1-0:14.7.0", frequency)] with
  | Raise e => Raise e
  | Ok measurements =>
    match struct [("max_demand_kw", maxDemandKw);
                  ("cost", costValue);
                  ("time_of_use", timeOfUse)] with
    | Raise e => Raise e
    | Ok aggregates =>
      let dlmsObj := [("meter_id", MChar (MeterId cfg));
                      ("node_type", MChar (NodeType cfg));
                      ("timestamp_ns", MInt64 timestamp_ns);
                      ("measurements", measurements);
                      ("aggregates", aggregates)] in
      Ok (MStruct (if negb (isempty meta)
                   then (dlmsObj ++ [("meta", meta)])%list
                   else dlmsObj))
    end
  end.

(** Line 276: [lower(dec2hex(out)')] read column by column, that is the
    digits of the bytes in order. *)
Definition hex (out : list byte) : string :=
  lower (string_of_list_ascii (List.concat (dec2hex out))).

Definition hmacSha256Hex (dataStr keyStr : string) : result string :=
  let keyBytes := uint8 keyStr in
  match HmacSHA256 keyBytes (uint8 dataStr) with
  | Raise e => Raise e
  | Ok out => Ok (hex out)
  end.

(** Lines 176-187: the payload in the configured format. *)
Definition encode (m : Measurement) (timestamp_ns : Z) : result string :=
  if strcmpi (CommunicationFormat cfg) "influx" then
    Ok (buildLineProtocolInflux
          (pActive m) (pReactive m) (voltage m) (current m) (frequency m)
          (timeOfUse m) (energyKwh m) (maxDemandKw m) (costValue m) timestamp_ns)
  else
    match buildDLMSPayload
            (pActive m) (pReactive m) (voltage m) (current m) (frequency m)
            (timeOfUse m) (energyKwh m) (maxDemandKw m) (costValue m)
            timestamp_ns (meta m) with
    | Raise e => Raise e
    | Ok dlmsMsg => Ok (jsonencode dlmsMsg)
    end.

Definition envelope (payload sig : string) (timestamp_ns : Z) : mvalue :=
  MStruct [("payload", MChar payload);
           ("hmac", MChar sig);
           ("meter_id", MChar (MeterId cfg));
           ("timestamp_ns", MInt64 timestamp_ns)].

(** Lines 189-199: the string handed to the transport. *)
Definition seal (payload : string) (timestamp_ns : Z) : result string :=
  if negb (isempty_char (HMACKey cfg)) then
    match hmacSha256Hex payload (HMACKey cfg) with
    | Raise e => Raise e
    | Ok sig => Ok (jsonencode (envelope payload sig timestamp_ns))
    end
  else Ok payload.

(** *** Transport *)

(** [write(client, data)] and [write(client, data, host, port)].  On [[]]
    there is nothing to write to. *)
Definition write_to (env : Env) (c : option client) (data : list byte)
    (dest : option (string * Z)) : M unit :=
  match c with
  | None => error "Undefined function 'write' for input arguments of type 'double'."
  | Some cl =>
    emit (write cl data dest) ;;
    match write_fault env with
    | Some e => lift (Raise e)
    | None => ret tt
    end
  end.

Definition tag : string := "[SmartMeter: " ++ MeterId cfg ++ "] ".

Definition sendToTelegraf (env : Env) (lineProtocol : string) : M unit :=
  try_catch
    (o <- obj ;;
     (if strcmp (TransportProtocol cfg) "tcp" then
        write_to env (TcpClient o) (uint8 lineProtocol) None
      else if strcmp (TransportProtocol cfg) "udp" then
        write_to env (TcpClient o) (uint8 lineProtocol)
                 (Some (TelegrafHost cfg, TelegrafPort cfg))
      else ret tt) ;;
     emit (disp (tag ++ "Data sent to Telegraf (len="
                 ++ num2str (Z.of_nat (String.length lineProtocol)) ++ ")")))
    (fun e => error ("Failed to send data to Telegraf: " ++ message e)).

(** *** The tick *)

(** Line 171. *)
Definition due (elapsed : Q) (count : Z) : bool :=
  Qle_bool (SendInterval cfg) elapsed || (count =? 1).

(** Lines 171-209, for a measurement [m]. *)
Definition transmit (env : Env) (elapsed : Q) (m : Measurement) : M Z :=
  o <- obj ;;
  if due elapsed (SampleCount o) then
    if IsConnected o then
      let timestamp_ns := posix_ns (nowUtc env) in
      payload <- lift (encode m timestamp_ns) ;;
      sendStr <- lift (seal payload timestamp_ns) ;;
      sendToTelegraf env sendStr ;;
      assign (set_LastSendTime (nowUtc env)) ;;
      ret 1
    else
      emit (warning "[SmartMeter] Not connected - skipping send.") ;;
      ret 0
  else ret 0.

(** Lines 81-209: the body of the [try]. *)
Definition tick (env : Env) (elapsed : Q) (varargin : list (list R)) : M Z :=
  m <- lift (measure varargin) ;;
  transmit env elapsed m.

(** Lines 67-219.  The outputs are [(y1, y2)]. *)
Definition stepImpl (env : Env) (varargin : list (list R)) : M (Z * Z) :=
  o <- obj ;;
  assign (set_SampleCount (SampleCount o + 1)) ;;
  d <- lift (minus (nowUtc env) (LastSendTime o)) ;;
  let elapsed := seconds d in
  dataStatus <-
    try_catch (tick env elapsed varargin)
      (fun e => emit (warning (tag ++ "Error in stepImpl: " ++ message e)) ;;
                ret (-1)) ;;
  ret (dataStatus, posix_ns (nowUtc env)).

(** *** Setup and reset *)

Definition dq : string := String "034"%char EmptyString.

Definition connect (env : Env) (c : client) : M client :=
  match connect_fault env with
  | Some e => lift (Raise e)
  | None => ret c
  end.

(** Lines 32-65. *)
Definition setupImpl (env : Env) : M unit :=
  try_catch
    (if strcmp (TransportProtocol cfg) "tcp" then
       c <- connect env (tcpclient (TelegrafHost cfg) (TelegrafPort cfg)) ;;
       assign (set_TcpClient (Some c)) ;;
       assign (set_IsConnected true) ;;
       emit (disp (tag ++ "Connected to Telegraf via TCP at "
                   ++ TelegrafHost cfg ++ ":" ++ num2str (TelegrafPort cfg)))
     else if strcmp (TransportProtocol cfg) "udp" then
       c <- connect env (udpport 0) ;;
       assign (set_TcpClient (Some c)) ;;
       assign (set_IsConnected true) ;;
       emit (disp (tag ++ "Configured for UDP to "
                   ++ TelegrafHost cfg ++ ":" ++ num2str (TelegrafPort cfg)))
     else
       error ("Unsupported transport protocol. Use " ++ dq ++ "tcp" ++ dq
              ++ " or " ++ dq ++ "udp" ++ dq ++ "."))
    (fun e =>
       emit (warning (tag ++ "Connection failed: " ++ message e)) ;;
       assign (set_IsConnected false)) ;;
  if strcmpi (TimeSync cfg) "ntp" then
    try_catch
      (emit (system "ntpdate -q pool.ntp.org") ;;
       match system_fault env with
       | Some e => lift (Raise e)
       | None => emit (disp "[SmartMeter] Attempted NTP time query (system call).")
       end)
      (fun _ => emit (warning "[SmartMeter] NTP request failed or not permitted."))
  else ret tt.

(** Lines 310-314. *)
Definition resetImpl : M unit :=
  assign (set_LastSendTime epoch) ;;
  assign (set_SampleCount 0).

(** *** Release, and what the block declares to the host *)

(** What [releaseImpl] finds outside: whether [clear] and [close] raise. *)
Record Closing : Type := {
  clear_fault : option MException;
  close_fault : option MException
}.

(** Lines 294-308.  [clear obj.TcpClient] and [close(obj.TcpClient)] act
    outside the properties of the block, and stand here as their outcome;
    no property is assigned. *)
Definition releaseImpl (out : Closing) : M unit :=
  try_catch
    (o <- obj ;;
     match TcpClient o with
     | Some _ =>
       lift (match (if strcmp (TransportProtocol cfg) "tcp"
                    then clear_fault out
                    else close_fault out) with
             | Some e => Raise e
             | None => Ok tt
             end) ;;
       emit (disp (tag ++ "Connection closed"))
     | None => ret tt
     end)
    (fun e => emit (warning ("Error closing connection: " ++ message e))).

(** Lines 316-318. *)
Definition getNumInputsImpl : Z := 9.

(** Lines 320-330. *)
Definition getInputNamesImpl : list string :=
  ["pActive"; "pReactive"; "voltage"; "current"; "frequency";
   "timeOfUse"; "energyKwh"; "maxDemandKw"; "costValue"].

(** Lines 333-336. *)
Definition getIconImpl : string := "Smart Meter".

(** The host loop: one [stepImpl] per tick, in order. *)
Fixpoint steps (ticks : list (Env * list (list R))) : M (list (Z * Z)) :=
  match ticks with
  | [] => ret []
  | (env, varargin) :: rest =>
    y <- stepImpl env varargin ;;
    ys <- steps rest ;;
    ret (y :: ys)
  end.

(** The worlds a block can be in: it is constructed, and then set up,
    stepped and reset in any order, for as long as the host goes on. *)
Inductive reachable : world -> Prop :=
| reach_constructed : reachable (constructed, [])
| reach_setup env w : reachable w -> reachable (snd (setupImpl env w))
| reach_step env varargin w :
    reachable w -> reachable (snd (stepImpl env varargin w))
| reach_reset w : reachable w -> reachable (snd (resetImpl w)).

End Block.

(** ** Reading the result of a method *)

Definition returned {A} (r : result A * world) : result A := fst r.
Definition object {A} (r : result A * world) : Private := fst (snd r).
Definition logged {A} (r : result A * world) : list event := snd (snd r).

(** A transport write among some events. *)
Definition is_write (e : event) : bool :=
  match e with write _ _ _ => true | _ => false end.

(** A system call among some events. *)
Definition is_system (e : event) : bool :=
  match e with system _ => true | _ => false end.

(** ** What a tick leaves in the log *)

Section Notes.

Variable cfg : Nontunable.

(** Where [sendToTelegraf] writes: nowhere, to the stream, or to a datagram
    address. *)
Definition destination : option (option (string * Z)) :=
  if strcmp (TransportProtocol cfg) "tcp" then Some None
  else if strcmp (TransportProtocol cfg) "udp"
       then Some (Some (TelegrafHost cfg, TelegrafPort cfg))
       else None.

(** Line 288. *)
Definition sent_note (lineProtocol : string) : event :=
  disp (tag cfg ++ "Data sent to Telegraf (len="
        ++ num2str (Z.of_nat (String.length lineProtocol)) ++ ")").

(** Line 290. *)
Definition send_failure (e : MException) : MException :=
  ME ("Failed to send data to Telegraf: " ++ message e).

Definition no_session : MException :=
  ME "Undefined function 'write' for input arguments of type 'double'.".

(** Line 206. *)
Definition not_connected_note : event :=
  warning "[SmartMeter] Not connected - skipping send.".

(** Line 212. *)
Definition step_failure (e : MException) : event :=
  warning (tag cfg ++ "Error in stepImpl: " ++ message e).

(** Line 77, when the subtraction is made. *)
Definition elapsed_at (env : Env) (o : Private) : Q :=
  seconds (clock env - instant (LastSendTime o)).

(** Whether line 77 returns: the last send time has a time zone, or the
    platform subtracts regardless. *)
Definition timed `{Platform} (o : Private) : bool :=
  zoned (LastSendTime o) || combines_zones.

(** The object after line 75. *)
Definition counted (o : Private) : Private :=
  set_SampleCount (SampleCount o + 1) o.

(** Line 111: the bin of the fundamental, zero-based, before wrapping. *)
Definition cycles (N : nat) : Z :=
  round (FundamentalFreq cfg * inject_Z (Z.of_nat N) / SamplingRate cfg).

(** Lines 111-118: the one-based bin read from the transforms. *)
Definition fundamental_bin (N : nat) : Z :=
  if Z.of_nat N <? cycles N + 1
  then cycles N mod Z.of_nat N + 1
  else cycles N + 1.

(** Lines 97-99: a sample sequence under the Hann window. *)
Definition windowed (xs : list R) : list R := times xs (hann (List.length xs)).

(** Lines 92-132: the result of the analysis, given the two phasors. *)
Definition reading (v i : list R) (Vf If : complex) : Waveform :=
  let n := INR (List.length v) in
  {| wN := List.length v;
     Vrms := sqrt (mean (sq (windowed v)));
     Irms := sqrt (mean (sq (windowed i)));
     P_inst := mean (times (windowed v) (windowed i));
     wkFund := kFund cfg (List.length v);
     V1 := Vf;
     I1 := If;
     S_fund := (Cabs Vf * Cabs If / n ^ 2)%R;
     Vrms_fund := (Cabs Vf / n / sqrt 2)%R;
     Irms_fund := (Cabs If / n / sqrt 2)%R;
     S := (Cabs Vf / n / sqrt 2 * (Cabs If / n / sqrt 2))%R;
     P_fund := (real (Cmul Vf (conj If)) / n ^ 2)%R;
     Q_fund := (imag (Cmul Vf (conj If)) / n ^ 2)%R |}.

(** Lines 36-49: the transport object that [setupImpl] asks for. *)
Definition configured_client : option client :=
  if strcmp (TransportProtocol cfg) "tcp"
  then Some (tcpclient (TelegrafHost cfg) (TelegrafPort cfg))
  else if strcmp (TransportProtocol cfg) "udp"
       then Some (udpport 0)
       else None.

(** Line 51. *)
Definition connection_failure (e : MException) : event :=
  warning (tag cfg ++ "Connection failed: " ++ message e).

(** Line 303. *)
Definition closed_note : event := disp (tag cfg ++ "Connection closed").

(** Line 306. *)
Definition closing_failure (e : MException) : event :=
  warning ("Error closing connection: " ++ message e).

(** The root mean square of a sequence as it is, without a window. *)
Definition rms (xs : list R) : R := sqrt (mean (sq xs)).

(** The nine quantities of a measurement, in the order of the inputs. *)
Definition quantities (m : Measurement) : list mvalue :=
  [pActive m; pReactive m; voltage m; current m; frequency m;
   timeOfUse m; energyKwh m; maxDemandKw m; costValue m].

(** Lines 227-233: the quantities that the Influx message formats. *)
Definition influx_fields (m : Measurement) : list mvalue :=
  [pActive m; pReactive m; voltage m; current m; frequency m;
   energyKwh m; maxDemandKw m; costValue m].

(** The OBIS-like names that [buildDLMSPayload] gives to [struct]. *)
Definition obis_names : list string :=
  ["1-0:1.8.0"; "1-0:2.8.0"; "1-0:16.7.0"; "1-0:3.7.0";
   "1-0:32.7.0"; "1-0:31.7.0"; "1-0:14.7.0"].

(** A tick at the instant [t] during which nothing outside fails. *)
Definition quiet (t : Z) : Env := {|
  clock := t;
  write_fault := None;
  connect_fault := None;
  system_fault := None
|}.

(** [d] seconds after the instant [t]. *)
Definition later (t : Z) (d : Z) : Z := t + d * 1000000000.

End Notes.

(** ** The wording of the specification, for comparison *)

(** The fundamental bin as the specification words it: the one-based index
    [k = round(f * N / fs)], wrapped by [((k - 1) mod N) + 1] when it
    exceeds [N]. *)
Definition spec_bin (cfg : Nontunable) (N : nat) : Z :=
  let k := round (FundamentalFreq cfg * inject_Z (Z.of_nat N) / SamplingRate cfg) in
  if Z.of_nat N <? k then (k - 1) mod Z.of_nat N + 1 else k.

(** The digits of lower-case hexadecimal. *)
Definition is_lower_hex (c : ascii) : bool :=
  existsb (Ascii.eqb c)
          ["0"; "1"; "2"; "3"; "4"; "5"; "6"; "7"; "8"; "9";
           "a"; "b"; "c"; "d"; "e"; "f"]%char.

(** A hexadecimal digit in lower case, by its character code: '0' is 48
    and 'a' is 97. *)
Definition lower_hex_digit (d : N) : ascii :=
  ascii_of_N (if (d <? 10)%N then 48 + d else 87 + d).

(** Lower-case hexadecimal, two digits per byte. *)
Definition hex_lower (out : list byte) : string :=
  string_of_list_ascii
    (flat_map (fun b => [lower_hex_digit (Byte.to_N b / 16);
                         lower_hex_digit (Byte.to_N b mod 16)]) out).

(** Lower-case hexadecimal, one digit per byte. *)
Definition hex_narrow (out : list byte) : string :=
  string_of_list_ascii (map (fun b => lower_hex_digit (Byte.to_N b)) out).

(** ** A platform and surroundings to run the model on *)

Module Bench.

(** A platform that formats nothing: [sprintf] returns its format,
    [jsonencode] the names of the top-level fields, every field name is
    valid and the MAC is 32 bytes of 0xA5.  As on MATLAB, a zoned and an
    unzoned datetime do not subtract. *)
Definition names (v : mvalue) : string :=
  match v with
  | MStruct fields => String.concat "," (map fst fields)
  | _ => ""
  end.

#[export] Instance platform : Platform := {|
  sprintf := fun format _ => format;
  jsonencode := names;
  isvarname := fun _ => true;
  HmacSHA256 := fun _ _ => Ok (repeat xa5 32);
  combines_zones := false
|}.

(** A clock reading [t] seconds after the epoch, nothing failing. *)
Definition at_second (t : Z) : Env := quiet (later 0 t).

(** The connection being refused. *)
Definition refusing (t : Z) : Env := {|
  clock := t * 1000000000;
  write_fault := None;
  connect_fault := Some (ME "Connection refused");
  system_fault := None
|}.

(** The defaults, sending every five seconds. *)
Definition every_5s : Nontunable := {|
  MeterId := "METER_001";
  NodeType := "consumer";
  TelegrafHost := "localhost";
  TelegrafPort := 8094;
  TransportProtocol := "tcp";
  SendInterval := 5;
  CommunicationFormat := "influx";
  UseWaveformInput := true;
  SamplingRate := 4800;
  FundamentalFreq := 50;
  HMACKey := "";
  TimeSync := "none"
|}.

(** The defaults, sampling four times per cycle. *)
Definition quarter : Nontunable := {|
  MeterId := "METER_001";
  NodeType := "consumer";
  TelegrafHost := "localhost";
  TelegrafPort := 8094;
  TransportProtocol := "tcp";
  SendInterval := 1;
  CommunicationFormat := "influx";
  UseWaveformInput := true;
  SamplingRate := 200;
  FundamentalFreq := 50;
  HMACKey := "";
  TimeSync := "none"
|}.

(** The defaults, signing with a key. *)
Definition signing : Nontunable := {|
  MeterId := "METER_001";
  NodeType := "consumer";
  TelegrafHost := "localhost";
  TelegrafPort := 8094;
  TransportProtocol := "tcp";
  SendInterval := 1;
  CommunicationFormat := "influx";
  UseWaveformInput := true;
  SamplingRate := 4800;
  FundamentalFreq := 50;
  HMACKey := "secret";
  TimeSync := "none"
|}.

(** The same, with the transport write failing. *)
Definition write_failing (t : Z) : Env := {|
  clock := t * 1000000000;
  write_fault := Some (ME "Connection reset by peer");
  connect_fault := None;
  system_fault := None
|}.

(** An established TCP session. *)
Definition session : client := tcpclient "localhost" 8094.

(** A block with an open session, before its first tick, whose last send
    time is a UTC datetime. *)
Definition connected : Private := {|
  TcpClient := Some session;
  LastSendTime := utc 0;
  SampleCount := 0;
  IsConnected := true
|}.

(** A block without a session, before its first tick, whose last send time
    is a UTC datetime. *)
Definition unopened : Private := {|
  TcpClient := None;
  LastSendTime := utc 0;
  SampleCount := 0;
  IsConnected := false
|}.

(** Four samples of voltage and four of current. *)
Definition window : list (list R) :=
  [[0; 325; 0; -325]%R; [0; 10; 0; -10]%R].

(** Field names as MATLAB spells them: a letter, then letters, digits and
    underscores, 63 characters at most. *)
Definition is_letter (c : ascii) : bool :=
  let n := nat_of_ascii c in
  ((65 <=? n) && (n <=? 90) || (97 <=? n) && (n <=? 122))%nat.

Definition is_digit (c : ascii) : bool :=
  let n := nat_of_ascii c in ((48 <=? n) && (n <=? 57))%nat.

Definition valid_name (s : string) : bool :=
  match s with
  | EmptyString => false
  | String c rest =>
    is_letter c
    && forallb (fun c => is_letter c || is_digit c || Ascii.eqb c "_")
               (list_ascii_of_string rest)
    && (String.length s <=? 63)%nat
  end.

(** The same platform, its [struct] refusing the names that are not field
    names. *)
Definition strict : Platform := {|
  sprintf := fun format _ => format;
  jsonencode := names;
  isvarname := valid_name;
  HmacSHA256 := fun _ _ => Ok (repeat xa5 32);
  combines_zones := false
|}.

(** A platform that subtracts a datetime without a time zone from one with
    a time zone, so that a block gets past line 77, and whose [jsonencode]
    shows the text and integer fields of a struct. *)
Definition field_text (f : string * mvalue) : string :=
  fst f ++ "=" ++ match snd f with
                  | MChar s => s
                  | MInt64 z => num2str z
                  | _ => "?"
                  end.

Definition fields_text (v : mvalue) : string :=
  match v with
  | MStruct fields => String.concat ";" (map field_text fields)
  | _ => ""
  end.

Definition lenient : Platform := {|
  sprintf := fun format _ => format;
  jsonencode := fields_text;
  isvarname := fun _ => true;
  HmacSHA256 := fun _ _ => Ok (repeat xa5 32);
  combines_zones := true
|}.

(** The defaults, but for the transport protocol, the format, the input
    mode and the time synchronisation. *)
Definition configured (protocol format : string) (waveform : bool)
    (sync : string) : Nontunable := {|
  MeterId := "METER_001";
  NodeType := "consumer";
  TelegrafHost := "localhost";
  TelegrafPort := 8094;
  TransportProtocol := protocol;
  SendInterval := 1;
  CommunicationFormat := format;
  UseWaveformInput := waveform;
  SamplingRate := 4800;
  FundamentalFreq := 50;
  HMACKey := "";
  TimeSync := sync
|}.

(** Another meter, with the defaults otherwise. *)
Definition other_meter : Nontunable := {|
  MeterId := "METER_002";
  NodeType := "prosumer";
  TelegrafHost := "localhost";
  TelegrafPort := 8094;
  TransportProtocol := "tcp";
  SendInterval := 1;
  CommunicationFormat := "influx";
  UseWaveformInput := true;
  SamplingRate := 4800;
  FundamentalFreq := 50;
  HMACKey := "";
  TimeSync := "none"
|}.

(** A measurement as the other input mode hands it on. *)
Definition sample : Measurement := {|
  pActive := MReal [1200%R];
  pReactive := MReal [300%R];
  voltage := MReal [230%R];
  current := MReal [5%R];
  frequency := MReal [50%R];
  timeOfUse := MReal [1%R];
  energyKwh := MReal [42%R];
  maxDemandKw := MReal [3%R];
  costValue := MReal [7%R];
  meta := MStruct []
|}.

(** A release during which nothing fails, and one whose [close] raises. *)
Definition closing : Closing := {| clear_fault := None; close_fault := None |}.

Definition close_failing : Closing := {|
  clear_fault := None;
  close_fault := Some (ME "Invalid handle")
|}.

End Bench.

(** ** How the methods run *)

Section Runs.

Context `{Platform}.
Variable cfg : Nontunable.

Ltac unfold_meth :=
  unfold bind, try_catch, lift, ret, error, emit, obj, assign; cbn [fst snd].

Lemma sendToTelegraf_run env s o l :
  sendToTelegraf cfg env s (o, l) =
  match destination cfg with
  | None => (Ok tt, (o, (l ++ [sent_note cfg s])%list))
  | Some dest =>
    match TcpClient o with
    | None => (Raise (send_failure no_session), (o, l))
    | Some c =>
      match write_fault env with
      | Some e =>
        (Raise (send_failure e), (o, (l ++ [write c (uint8 s) dest])%list))
      | None =>
        (Ok tt, (o, (l ++ [write c (uint8 s) dest; sent_note cfg s])%list))
      end
    end
  end.
Proof.
  unfold sendToTelegraf, destination, write_to, sent_note. unfold_meth.
  destruct (strcmp (TransportProtocol cfg) "tcp");
    [ | destruct (strcmp (TransportProtocol cfg) "udp") ];
    try reflexivity;
    destruct (TcpClient o); unfold_meth; try reflexivity;
    destruct (write_fault env); unfold_meth; try reflexivity;
    rewrite <- app_assoc; reflexivity.
Qed.

Lemma transmit_run env elapsed m o l :
  transmit cfg env elapsed m (o, l) =
  if due cfg elapsed (SampleCount o) then
    if IsConnected o then
      match encode cfg m (posix_ns (nowUtc env)) with
      | Raise e => (Raise e, (o, l))
      | Ok payload =>
        match seal cfg payload (posix_ns (nowUtc env)) with
        | Raise e => (Raise e, (o, l))
        | Ok sendStr =>
          match sendToTelegraf cfg env sendStr (o, l) with
          | (Ok _, (o', l')) => (Ok 1, (set_LastSendTime (nowUtc env) o', l'))
          | (Raise e, w') => (Raise e, w')
          end
        end
      end
    else (Ok 0, (o, (l ++ [not_connected_note])%list))
  else (Ok 0, (o, l)).
Proof.
  unfold transmit. unfold_meth.
  destruct (due cfg elapsed (SampleCount o)); [ | reflexivity ].
  destruct (IsConnected o); [ | reflexivity ].
  destruct (encode cfg m _) as [payload | e]; [ | reflexivity ].
  destruct (seal cfg payload _) as [sendStr | e]; [ | reflexivity ].
  destruct (sendToTelegraf cfg env sendStr (o, l)) as [[[] | e] [o' l']];
    reflexivity.
Qed.

Lemma tick_run env elapsed varargin w :
  tick cfg env elapsed varargin w =
  match measure cfg varargin with
  | Raise e => (Raise e, w)
  | Ok m => transmit cfg env elapsed m w
  end.
Proof.
  unfold tick. unfold_meth. destruct (measure cfg varargin); reflexivity.
Qed.

(** Line 77. *)
Lemma minus_now env o :
  minus (nowUtc env) (LastSendTime o) =
  if timed o
  then Ok (clock env - instant (LastSendTime o))
  else Raise incompatible_zones.
Proof.
  unfold minus, timed, nowUtc. change (zoned (utc (clock env))) with true.
  destruct (zoned (LastSendTime o)); reflexivity.
Qed.

Lemma stepImpl_run env varargin o l :
  stepImpl cfg env varargin (o, l) =
  if timed o then
    match tick cfg env (elapsed_at env o) varargin (counted o, l) with
    | (Ok s, w') => (Ok (s, posix_ns (nowUtc env)), w')
    | (Raise e, (o', l')) =>
      (Ok (-1, posix_ns (nowUtc env)), (o', (l' ++ [step_failure cfg e])%list))
    end
  else (Raise incompatible_zones, (counted o, l)).
Proof.
  unfold stepImpl, elapsed_at, counted. unfold_meth.
  rewrite minus_now.
  destruct (timed o); [ | reflexivity ].
  destruct (tick cfg env _ varargin _) as [[s | e] [o' l']]; reflexivity.
Qed.

(** The same, once line 77 has returned. *)
Lemma stepImpl_timed env varargin o l :
  timed o = true ->
  stepImpl cfg env varargin (o, l) =
  match tick cfg env (elapsed_at env o) varargin (counted o, l) with
  | (Ok s, w') => (Ok (s, posix_ns (nowUtc env)), w')
  | (Raise e, (o', l')) =>
    (Ok (-1, posix_ns (nowUtc env)), (o', (l' ++ [step_failure cfg e])%list))
  end.
Proof. intros Hz. rewrite stepImpl_run, Hz. reflexivity. Qed.

(** The gate, as a proposition. *)
Lemma due_iff elapsed count :
  due cfg elapsed count = true <-> (SendInterval cfg <= elapsed)%Q \/ count = 1.
Proof.
  unfold due. rewrite orb_true_iff, Qle_bool_iff, Z.eqb_eq. reflexivity.
Qed.

End Runs.

(** ** The tick: outcomes *)

Section Tick.

Context `{Platform}.
Variable cfg : Nontunable.

Lemma transmit_status env elapsed m w s w' :
  transmit cfg env elapsed m w = (Ok s, w') -> s = 0 \/ s = 1.
Proof.
  destruct w as [o l]. rewrite transmit_run.
  destruct (due cfg elapsed (SampleCount o)); [ | intros [= <- _]; auto ].
  destruct (IsConnected o); [ | intros [= <- _]; auto ].
  destruct (encode cfg m _) as [p | e]; [ | discriminate ].
  destruct (seal cfg p _) as [str | e]; [ | discriminate ].
  destruct (sendToTelegraf cfg env str (o, l)) as [[[] | e] [o' l']];
    [ intros [= <- _]; auto | discriminate ].
Qed.

Lemma tick_status env elapsed varargin w s w' :
  tick cfg env elapsed varargin w = (Ok s, w') -> s = 0 \/ s = 1.
Proof.
  rewrite tick_run. destruct (measure cfg varargin); [ | discriminate ].
  apply transmit_status.
Qed.

(** The body of the [try], once the tick is due on an open session. *)
Lemma tick_sending env varargin o l m :
  measure cfg varargin = Ok m ->
  due cfg (elapsed_at env o) (SampleCount o + 1) = true ->
  IsConnected o = true ->
  tick cfg env (elapsed_at env o) varargin (counted o, l) =
  match encode cfg m (posix_ns (nowUtc env)) with
  | Raise e => (Raise e, (counted o, l))
  | Ok payload =>
    match seal cfg payload (posix_ns (nowUtc env)) with
    | Raise e => (Raise e, (counted o, l))
    | Ok sendStr =>
      match destination cfg with
      | None =>
        (Ok 1, (set_LastSendTime (nowUtc env) (counted o),
                (l ++ [sent_note cfg sendStr])%list))
      | Some dest =>
        match TcpClient o with
        | None => (Raise (send_failure no_session), (counted o, l))
        | Some c =>
          match write_fault env with
          | Some e =>
            (Raise (send_failure e),
             (counted o, (l ++ [write c (uint8 sendStr) dest])%list))
          | None =>
            (Ok 1, (set_LastSendTime (nowUtc env) (counted o),
                    (l ++ [write c (uint8 sendStr) dest;
                           sent_note cfg sendStr])%list))
          end
        end
      end
    end
  end.
Proof.
  intros Hm Hdue Hcon.
  rewrite tick_run, Hm, transmit_run.
  unfold counted at 1 2; cbn [SampleCount IsConnected set_SampleCount].
  rewrite Hdue, Hcon.
  destruct (encode cfg m _) as [p | e]; [ | reflexivity ].
  destruct (seal cfg p _) as [str | e]; [ | reflexivity ].
  rewrite sendToTelegraf_run.
  unfold counted at 1; cbn [TcpClient set_SampleCount].
  destruct (destination cfg) as [dest | ]; [ | reflexivity ].
  destruct (TcpClient o); [ | reflexivity ].
  destruct (write_fault env); reflexivity.
Qed.

(** The body of the [try], in the other cases. *)
Lemma tick_invalid env elapsed varargin w e :
  measure cfg varargin = Raise e ->
  tick cfg env elapsed varargin w = (Raise e, w).
Proof. intros Hm. rewrite tick_run, Hm. reflexivity. Qed.

Lemma tick_not_due env varargin o l m :
  measure cfg varargin = Ok m ->
  due cfg (elapsed_at env o) (SampleCount o + 1) = false ->
  tick cfg env (elapsed_at env o) varargin (counted o, l) = (Ok 0, (counted o, l)).
Proof.
  intros Hm Hdue. rewrite tick_run, Hm, transmit_run.
  unfold counted at 1; cbn [SampleCount set_SampleCount]. rewrite Hdue.
  reflexivity.
Qed.

Lemma tick_not_connected env varargin o l m :
  measure cfg varargin = Ok m ->
  due cfg (elapsed_at env o) (SampleCount o + 1) = true ->
  IsConnected o = false ->
  tick cfg env (elapsed_at env o) varargin (counted o, l)
  = (Ok 0, (counted o, (l ++ [not_connected_note])%list)).
Proof.
  intros Hm Hdue Hcon. rewrite tick_run, Hm, transmit_run.
  unfold counted at 1 2; cbn [SampleCount IsConnected set_SampleCount].
  rewrite Hdue, Hcon. reflexivity.
Qed.

(** When the body of the [try] raises: on inputs that the analysis refuses
    and, on a due tick of a connected block, when encoding, signing or the
    transport write raises. *)
Lemma body_raises env varargin o l :
  (forall e, measure cfg varargin = Raise e ->
     tick cfg env (elapsed_at env o) varargin (counted o, l)
     = (Raise e, (counted o, l)))
  /\ (forall m, measure cfg varargin = Ok m ->
      due cfg (elapsed_at env o) (SampleCount o + 1) = true ->
      IsConnected o = true ->
      (forall e, encode cfg m (posix_ns (nowUtc env)) = Raise e ->
         tick cfg env (elapsed_at env o) varargin (counted o, l)
         = (Raise e, (counted o, l)))
      /\ (forall p e,
            encode cfg m (posix_ns (nowUtc env)) = Ok p ->
            seal cfg p (posix_ns (nowUtc env)) = Raise e ->
            tick cfg env (elapsed_at env o) varargin (counted o, l)
            = (Raise e, (counted o, l)))
      /\ (forall p str c dest e,
            encode cfg m (posix_ns (nowUtc env)) = Ok p ->
            seal cfg p (posix_ns (nowUtc env)) = Ok str ->
            destination cfg = Some dest -> TcpClient o = Some c ->
            write_fault env = Some e ->
            tick cfg env (elapsed_at env o) varargin (counted o, l)
            = (Raise (send_failure e),
               (counted o, (l ++ [write c (uint8 str) dest])%list)))).
Proof.
  split; [ intros e He; now apply tick_invalid | ].
  intros m Hm Hdue Hcon.
  rewrite (tick_sending env varargin o l m Hm Hdue Hcon).
  repeat split.
  - intros e ->. reflexivity.
  - intros p e -> ->. reflexivity.
  - intros p str c dest e -> -> -> -> ->. reflexivity.
Qed.

(** X1. Once line 77 has returned, [stepImpl] returns to the host: its status
    is 1, 0 or -1 and its second output is the capture time of this tick in
    nanoseconds since the epoch.  An exception raised in the body of the
    [try] is caught, logged and turned into status -1, be it raised by the
    analysis of the inputs, by encoding, by signing or by the transport
    write. *)
Lemma body_exceptions_are_caught env varargin o l :
  timed o = true ->
  exists s o' l',
    stepImpl cfg env varargin (o, l)
    = (Ok (s, posix_ns (nowUtc env)), (o', l'))
    /\ (s = 1 \/ s = 0 \/ s = -1)
    /\ (forall e w',
          tick cfg env (elapsed_at env o) varargin (counted o, l) = (Raise e, w') ->
          s = -1 /\ o' = fst w' /\ l' = (snd w' ++ [step_failure cfg e])%list)
    /\ (forall e, measure cfg varargin = Raise e -> s = -1)
    /\ (forall m, measure cfg varargin = Ok m ->
        due cfg (elapsed_at env o) (SampleCount o + 1) = true ->
        IsConnected o = true ->
        (forall e, encode cfg m (posix_ns (nowUtc env)) = Raise e -> s = -1)
        /\ (forall p e,
              encode cfg m (posix_ns (nowUtc env)) = Ok p ->
              seal cfg p (posix_ns (nowUtc env)) = Raise e -> s = -1)
        /\ (forall p str c dest e,
              encode cfg m (posix_ns (nowUtc env)) = Ok p ->
              seal cfg p (posix_ns (nowUtc env)) = Ok str ->
              destination cfg = Some dest -> TcpClient o = Some c ->
              write_fault env = Some e -> s = -1)).
Proof.
  intros Hz. rewrite (stepImpl_timed cfg env varargin o l Hz).
  destruct (body_raises env varargin o l) as [Hanalysis Hsend].
  destruct (tick cfg env (elapsed_at env o) varargin (counted o, l))
    as [[s | e] [o' l']] eqn:Hbody.
  - exists s, o', l'. split; [ reflexivity | ].
    split; [ destruct (tick_status _ _ _ _ _ _ Hbody); auto | ].
    split; [ discriminate | ].
    split; [ intros e He; discriminate (Hanalysis e He) | ].
    intros m Hm Hdue Hcon.
    destruct (Hsend m Hm Hdue Hcon) as (Henc & Hsig & Hwr).
    repeat split.
    + intros e He. discriminate (Henc e He).
    + intros p e Hp He. discriminate (Hsig p e Hp He).
    + intros p str c dest e Hp Hs Hd Hc He.
      discriminate (Hwr p str c dest e Hp Hs Hd Hc He).
  - exists (-1), o', (l' ++ [step_failure cfg e])%list.
    split; [ reflexivity | ].
    split; [ auto | ].
    split; [ intros e0 w' [= <- <-]; auto | ].
    split; [ reflexivity | ].
    intros m Hm Hdue Hcon. repeat split; reflexivity.
Qed.

End Tick.

(** ** What a tick writes, and when it returns 1 *)

Section Outcomes.

Context `{Platform}.
Variable cfg : Nontunable.

(** Whatever the state, a write that a tick adds to the log is the only one
    it adds, goes to the handle of the block, and carries the sealed,
    encoded measurement of the inputs of that tick. *)
Lemma stepImpl_writes env varargin o l :
  exists evs,
    logged (stepImpl cfg env varargin (o, l)) = (l ++ evs)%list
    /\ forall c data dest,
         In (write c data dest) evs ->
         exists m payload str,
           measure cfg varargin = Ok m
           /\ encode cfg m (posix_ns (nowUtc env)) = Ok payload
           /\ seal cfg payload (posix_ns (nowUtc env)) = Ok str
           /\ data = uint8 str
           /\ TcpClient o = Some c
           /\ destination cfg = Some dest
           /\ filter is_write evs = [write c data dest].
Proof.
  rewrite stepImpl_run. unfold logged.
  destruct (timed o) eqn:Hz.
  2:{ exists []. cbn [fst snd]. rewrite app_nil_r.
      split; [ reflexivity | intros ? ? ? [] ]. }
  rewrite tick_run.
  destruct (measure cfg varargin) as [m | e] eqn:Hm.
  2:{ eexists. cbn [fst snd]. split; [ reflexivity | ].
      intros c' data dest' [[=] | []]. }
  destruct (due cfg (elapsed_at env o) (SampleCount o + 1)) eqn:Hdue.
  2:{ generalize (tick_not_due cfg env varargin o l m Hm Hdue).
      rewrite tick_run, Hm. intros ->.
      exists []. cbn [fst snd]. rewrite app_nil_r.
      split; [ reflexivity | intros ? ? ? [] ]. }
  destruct (IsConnected o) eqn:Hcon.
  2:{ generalize (tick_not_connected cfg env varargin o l m Hm Hdue Hcon).
      rewrite tick_run, Hm. intros ->.
      eexists. cbn [fst snd]. split; [ reflexivity | ].
      intros c' data dest' [[=] | []]. }
  generalize (tick_sending cfg env varargin o l m Hm Hdue Hcon).
  rewrite tick_run, Hm. intros ->.
  destruct (encode cfg m _) as [p | e] eqn:Hp.
  2:{ eexists. cbn [fst snd]. split; [ reflexivity | ].
      intros c' data dest' [[=] | []]. }
  destruct (seal cfg p _) as [str | e] eqn:Hstr.
  2:{ eexists. cbn [fst snd]. split; [ reflexivity | ].
      intros c' data dest' [[=] | []]. }
  destruct (destination cfg) as [dest | ].
  2:{ eexists. cbn [fst snd]. split; [ reflexivity | ].
      intros c' data dest' [[=] | []]. }
  destruct (TcpClient o) as [c | ].
  2:{ eexists. cbn [fst snd]. split; [ reflexivity | ].
      intros c' data dest' [[=] | []]. }
  destruct (write_fault env) as [e | ].
  - exists [write c (uint8 str) dest; step_failure cfg (send_failure e)].
    cbn [fst snd]. rewrite <- app_assoc. split; [ reflexivity | ].
    intros c' data dest' [[= <- <- <-] | [[=] | []]].
    exists m, p, str. repeat split; first [ assumption | reflexivity ].
  - exists [write c (uint8 str) dest; sent_note cfg str].
    cbn [fst snd]. split; [ reflexivity | ].
    intros c' data dest' [[= <- <- <-] | [[=] | []]].
    exists m, p, str. repeat split; first [ assumption | reflexivity ].
Qed.

(** A tick returns 1 only after line 77 has returned, on accepted inputs,
    when it is due on a connected block and the message was built. *)
Lemma stepImpl_sent env varargin o l ts :
  returned (stepImpl cfg env varargin (o, l)) = Ok (1, ts) ->
  exists m payload str,
    timed o = true
    /\ measure cfg varargin = Ok m
    /\ due cfg (elapsed_at env o) (SampleCount o + 1) = true
    /\ IsConnected o = true
    /\ encode cfg m (posix_ns (nowUtc env)) = Ok payload
    /\ seal cfg payload (posix_ns (nowUtc env)) = Ok str.
Proof.
  rewrite stepImpl_run. unfold returned.
  destruct (timed o) eqn:Hz; [ | discriminate ].
  rewrite tick_run.
  destruct (measure cfg varargin) as [m | e] eqn:Hm; [ | discriminate ].
  destruct (due cfg (elapsed_at env o) (SampleCount o + 1)) eqn:Hdue.
  2:{ generalize (tick_not_due cfg env varargin o l m Hm Hdue).
      rewrite tick_run, Hm. intros ->. discriminate. }
  destruct (IsConnected o) eqn:Hcon.
  2:{ generalize (tick_not_connected cfg env varargin o l m Hm Hdue Hcon).
      rewrite tick_run, Hm. intros ->. discriminate. }
  generalize (tick_sending cfg env varargin o l m Hm Hdue Hcon).
  rewrite tick_run, Hm. intros ->.
  destruct (encode cfg m _) as [p | e] eqn:Hp; [ | discriminate ].
  destruct (seal cfg p _) as [str | e] eqn:Hstr; [ | discriminate ].
  intros _. exists m, p, str. auto 6.
Qed.

End Outcomes.

(** ** The scheduler's state *)

Section Scheduler.

Context `{Platform}.
Variable cfg : Nontunable.

(** Whatever happens in a tick, the object afterwards is the counted one,
    with [LastSendTime] moved to now exactly when the status is 1, and the
    log has only grown. *)
Lemma step_shape env varargin o l :
  timed o = true ->
  exists s evs,
    stepImpl cfg env varargin (o, l)
    = (Ok (s, posix_ns (nowUtc env)),
       ((if s =? 1 then set_LastSendTime (nowUtc env) (counted o) else counted o),
        (l ++ evs)%list))
    /\ (s = 1 \/ s = 0 \/ s = -1).
Proof.
  intros Hz. rewrite (stepImpl_timed cfg env varargin o l Hz), tick_run.
  destruct (measure cfg varargin) as [m | e] eqn:Hm.
  2:{ exists (-1), [step_failure cfg e]. split; [ reflexivity | auto ]. }
  destruct (due cfg (elapsed_at env o) (SampleCount o + 1)) eqn:Hdue.
  2:{ generalize (tick_not_due cfg env varargin o l m Hm Hdue).
      rewrite tick_run, Hm. intros ->.
      exists 0, []. rewrite app_nil_r. split; [ reflexivity | auto ]. }
  destruct (IsConnected o) eqn:Hcon.
  2:{ generalize (tick_not_connected cfg env varargin o l m Hm Hdue Hcon).
      rewrite tick_run, Hm. intros ->.
      exists 0, [not_connected_note]. split; [ reflexivity | auto ]. }
  generalize (tick_sending cfg env varargin o l m Hm Hdue Hcon).
  rewrite tick_run, Hm. intros ->.
  destruct (encode cfg m _) as [p | e].
  2:{ exists (-1), [step_failure cfg e]. split; [ reflexivity | auto ]. }
  destruct (seal cfg p _) as [str | e].
  2:{ exists (-1), [step_failure cfg e]. split; [ reflexivity | auto ]. }
  destruct (destination cfg) as [dest | ].
  2:{ exists 1, [sent_note cfg str]. split; [ reflexivity | auto ]. }
  destruct (TcpClient o) as [c | ].
  2:{ exists (-1), [step_failure cfg (send_failure no_session)].
      split; [ reflexivity | auto ]. }
  destruct (write_fault env) as [e | ].
  - exists (-1), [write c (uint8 str) dest; step_failure cfg (send_failure e)].
    rewrite <- app_assoc. split; [ reflexivity | auto ].
  - exists 1, [write c (uint8 str) dest; sent_note cfg str].
    split; [ reflexivity | auto ].
Qed.


(** C1. What the specification says of [stepImpl], that it never raises to
    the host, does not hold of the code on MATLAB.  [stepImpl] subtracts
    [LastSendTime] from the current UTC time on line 77, before the [try].
    [LastSendTime] starts as [datetime(1970,1,1)], which has no time zone,
    and [resetImpl] puts it back to that; a platform that does not subtract
    a datetime without a time zone from one with a time zone raises there,
    so the first invocation after construction and after every reset raises
    to the host, whatever the inputs, having only counted the tick.  The
    same holds from every state whose [LastSendTime] has no time zone, and
    from no other. *)
Theorem first_tick_raises env varargin l0 :
  combines_zones = false ->
  stepImpl cfg env varargin (constructed, l0)
  = (Raise incompatible_zones, (counted constructed, l0))
  /\ (forall o l,
        stepImpl cfg env varargin (snd (resetImpl (o, l)))
        = (Raise incompatible_zones, (counted (object (resetImpl (o, l))), l)))
  /\ (forall o l,
        zoned (LastSendTime o) = false ->
        stepImpl cfg env varargin (o, l)
        = (Raise incompatible_zones, (counted o, l)))
  /\ (forall o l,
        (exists e, returned (stepImpl cfg env varargin (o, l)) = Raise e)
        <-> zoned (LastSendTime o) = false).
Proof.
  intros Hcz.
  assert (Hraise : forall o l,
            zoned (LastSendTime o) = false ->
            stepImpl cfg env varargin (o, l)
            = (Raise incompatible_zones, (counted o, l))).
  { intros o l Hz. rewrite stepImpl_run. unfold timed. rewrite Hz, Hcz.
    reflexivity. }
  split; [ apply Hraise; reflexivity | ].
  split; [ | split; [ exact Hraise | ] ].
  - intros o l.
    change (snd (resetImpl (o, l)))
      with ({| TcpClient := TcpClient o;
               LastSendTime := epoch;
               SampleCount := 0;
               IsConnected := IsConnected o |}, l).
    apply Hraise. reflexivity.
  - intros o l. destruct (zoned (LastSendTime o)) eqn:Hz.
    + assert (Ht : timed o = true) by (unfold timed; rewrite Hz; reflexivity).
      destruct (step_shape env varargin o l Ht) as (s & evs & -> & _).
      split; [ intros [e He]; discriminate He | discriminate ].
    + rewrite (Hraise o l Hz).
      split; [ reflexivity | exists incompatible_zones; reflexivity ].
Qed.

(** On a platform that subtracts the two datetimes all the same, line 77
    returns from every state and [stepImpl] never raises. *)
Lemma combining_platform_never_raises env varargin o l :
  combines_zones = true ->
  exists s o' l',
    stepImpl cfg env varargin (o, l) = (Ok (s, posix_ns (nowUtc env)), (o', l'))
    /\ (s = 1 \/ s = 0 \/ s = -1).
Proof.
  intros Hcz.
  assert (Ht : timed o = true) by (unfold timed; rewrite Hcz; apply orb_true_r).
  destruct (step_shape env varargin o l Ht) as (s & evs & -> & Hs).
  eauto.
Qed.

(** C7. [LastSendTime] moves, to the capture time of the tick, only on a
    tick whose status is 1, that is only when the transmission succeeded;
    on a skipped tick (0), on a tick that ended in an error (-1) and on a
    tick that raised it keeps its value.  A status of 1 on a block that
    writes to a transport means the write was made and did not fail. *)
Theorem last_send_time_only_on_success env varargin o l :
  LastSendTime (object (stepImpl cfg env varargin (o, l)))
  = match returned (stepImpl cfg env varargin (o, l)) with
    | Ok (s, _) => if s =? 1 then nowUtc env else LastSendTime o
    | Raise _ => LastSendTime o
    end
  /\ (forall ts,
        returned (stepImpl cfg env varargin (o, l)) = Ok (1, ts) ->
        forall dest, destination cfg = Some dest ->
        write_fault env = None
        /\ exists c str,
             TcpClient o = Some c
             /\ logged (stepImpl cfg env varargin (o, l))
                = (l ++ [write c (uint8 str) dest; sent_note cfg str])%list).
Proof.
  rewrite stepImpl_run.
  destruct (timed o) eqn:Hz;
    [ | split; [ reflexivity | discriminate ] ].
  rewrite tick_run.
  destruct (measure cfg varargin) as [m | e] eqn:Hm;
    [ | split; [ reflexivity | discriminate ] ].
  destruct (due cfg (elapsed_at env o) (SampleCount o + 1)) eqn:Hdue.
  2:{ generalize (tick_not_due cfg env varargin o l m Hm Hdue).
      rewrite tick_run, Hm. intros ->.
      split; [ reflexivity | discriminate ]. }
  destruct (IsConnected o) eqn:Hcon.
  2:{ generalize (tick_not_connected cfg env varargin o l m Hm Hdue Hcon).
      rewrite tick_run, Hm. intros ->.
      split; [ reflexivity | discriminate ]. }
  generalize (tick_sending cfg env varargin o l m Hm Hdue Hcon).
  rewrite tick_run, Hm. intros ->.
  destruct (encode cfg m _) as [p | e];
    [ | split; [ reflexivity | discriminate ] ].
  destruct (seal cfg p _) as [str | e];
    [ | split; [ reflexivity | discriminate ] ].
  destruct (destination cfg) as [dest | ];
    [ | split; [ reflexivity | discriminate ] ].
  destruct (TcpClient o) as [c | ];
    [ | split; [ reflexivity | discriminate ] ].
  destruct (write_fault env) as [e | ];
    [ split; [ reflexivity | discriminate ] | ].
  split; [ reflexivity | ].
  intros ts _ dest' [= <-]. split; [ reflexivity | ].
  exists c, str. split; reflexivity.
Qed.

(** C9. [resetImpl] puts [LastSendTime] back to the epoch and [SampleCount]
    back to zero and changes nothing else: the session handle and the
    connected flag are as before and nothing is written or logged, so a
    reset does not reconnect.  A send made after the reset goes to the same
    session and fares as it would have before. *)
Theorem reset_keeps_connection env str o l :
  resetImpl (o, l)
  = (Ok tt,
     ({| TcpClient := TcpClient o;
         LastSendTime := epoch;
         SampleCount := 0;
         IsConnected := IsConnected o |}, l))
  /\ TcpClient (object (resetImpl (o, l))) = TcpClient o
  /\ IsConnected (object (resetImpl (o, l))) = IsConnected o
  /\ logged (resetImpl (o, l)) = l
  /\ returned (sendToTelegraf cfg env str (snd (resetImpl (o, l))))
     = returned (sendToTelegraf cfg env str (o, l))
  /\ logged (sendToTelegraf cfg env str (snd (resetImpl (o, l))))
     = logged (sendToTelegraf cfg env str (o, l)).
Proof.
  split; [ reflexivity | ].
  split; [ reflexivity | ].
  split; [ reflexivity | ].
  split; [ reflexivity | ].
  change (snd (resetImpl (o, l)))
    with ({| TcpClient := TcpClient o;
             LastSendTime := epoch;
             SampleCount := 0;
             IsConnected := IsConnected o |}, l).
  rewrite !sendToTelegraf_run. cbn [TcpClient].
  destruct (destination cfg) as [dest | ]; [ | split; reflexivity ].
  destruct (TcpClient o) as [c | ]; [ | split; reflexivity ].
  destruct (write_fault env); split; reflexivity.
Qed.

(** A tick that is not due: nothing but the counter moves, and the status is
    0 unless the inputs were refused. *)
Lemma step_not_due env varargin o l :
  timed o = true ->
  due cfg (elapsed_at env o) (SampleCount o + 1) = false ->
  stepImpl cfg env varargin (o, l) =
  match measure cfg varargin with
  | Ok _ => (Ok (0, posix_ns (nowUtc env)), (counted o, l))
  | Raise e =>
    (Ok (-1, posix_ns (nowUtc env)), (counted o, (l ++ [step_failure cfg e])%list))
  end.
Proof.
  intros Hz Hdue. rewrite (stepImpl_timed cfg env varargin o l Hz).
  destruct (measure cfg varargin) as [m | e] eqn:Hm.
  - rewrite (tick_not_due cfg env varargin o l m Hm Hdue). reflexivity.
  - rewrite (tick_invalid cfg env _ varargin _ e Hm). reflexivity.
Qed.

(** From a state on which line 77 returns, the host loop never raises; it
    counts its ticks, leaves the connection alone and ends in a state on
    which line 77 returns. *)
Lemma steps_shape ticks :
  forall o l,
  timed o = true ->
  exists ys o' l',
    steps cfg ticks (o, l) = (Ok ys, (o', l'))
    /\ List.length ys = List.length ticks
    /\ SampleCount o' = SampleCount o + Z.of_nat (List.length ticks)
    /\ TcpClient o' = TcpClient o
    /\ IsConnected o' = IsConnected o
    /\ timed o' = true.
Proof.
  induction ticks as [ | [env varargin] rest IH ]; intros o l Hz.
  - exists [], o, l. cbn. rewrite Z.add_0_r. auto 6.
  - cbn [steps]. unfold bind at 1.
    destruct (step_shape env varargin o l Hz) as (s & evs & -> & _).
    set (o1 := if s =? 1 then _ else _).
    assert (Ho1 : SampleCount o1 = SampleCount o + 1
                  /\ TcpClient o1 = TcpClient o
                  /\ IsConnected o1 = IsConnected o
                  /\ timed o1 = true)
      by (subst o1; destruct (s =? 1); cbn; auto).
    destruct Ho1 as (Hc1 & Ht1 & Hi1 & Hz1).
    destruct (IH o1 (l ++ evs)%list Hz1)
      as (ys & o' & l' & Hrun & Hlen & Hcount & Hcl & Hcon & Hz').
    unfold bind, ret. rewrite Hrun.
    exists ((s, posix_ns (nowUtc env)) :: ys), o', l'.
    split; [ reflexivity | ].
    cbn [List.length]. rewrite Hlen, Hcount, Hcl, Hcon, Hc1, Ht1, Hi1.
    repeat split; try lia. exact Hz'.
Qed.

(** C10. [SampleCount] goes up by exactly one in every invocation of
    [stepImpl], before the inputs are looked at and whatever the outcome (a
    tick that raises on line 77 is counted too); a host loop of n ticks that
    run counts n.  The gate reads the counter after the increment: on the
    first invocation after construction or reset (counter 0) the tick is
    due whatever the elapsed time, and on every later invocation the gate is
    the elapsed-time test alone.  In particular a second tick that comes
    before the send interval has elapsed makes no transmission, whether or
    not the first tick failed. *)
Theorem counter_counts_every_tick env varargin o l :
  SampleCount (object (stepImpl cfg env varargin (o, l))) = SampleCount o + 1
  /\ (timed o = true ->
      forall ticks,
        SampleCount (object (steps cfg ticks (o, l)))
        = SampleCount o + Z.of_nat (List.length ticks))
  /\ SampleCount (object (resetImpl (o, l))) = 0
  /\ (SampleCount o = 0 ->
      due cfg (elapsed_at env o) (SampleCount o + 1) = true)
  /\ (SampleCount o = 0 -> timed o = true ->
      forall ticks elapsed, ticks <> [] ->
        due cfg elapsed (SampleCount (object (steps cfg ticks (o, l))) + 1)
        = Qle_bool (SendInterval cfg) elapsed)
  /\ (SampleCount o = 0 -> timed o = true ->
      forall env2 varargin2,
        Qle_bool (SendInterval cfg)
                 (elapsed_at env2 (object (stepImpl cfg env varargin (o, l))))
        = false ->
        stepImpl cfg env2 varargin2 (snd (stepImpl cfg env varargin (o, l)))
        = match measure cfg varargin2 with
          | Ok _ =>
            (Ok (0, posix_ns (nowUtc env2)),
             (counted (object (stepImpl cfg env varargin (o, l))),
              logged (stepImpl cfg env varargin (o, l))))
          | Raise e =>
            (Ok (-1, posix_ns (nowUtc env2)),
             (counted (object (stepImpl cfg env varargin (o, l))),
              (logged (stepImpl cfg env varargin (o, l))
               ++ [step_failure cfg e])%list))
          end).
Proof.
  split.
  { rewrite stepImpl_run.
    destruct (timed o) eqn:Hz; [ | reflexivity ].
    rewrite <- (stepImpl_timed cfg env varargin o l Hz).
    destruct (step_shape env varargin o l Hz) as (s & evs & -> & _).
    unfold object; cbn [fst snd]. destruct (s =? 1); reflexivity. }
  split.
  { intros Hz ticks.
    destruct (steps_shape ticks o l Hz) as (ys & o' & l' & -> & _ & Hcount & _).
    exact Hcount. }
  split; [ reflexivity | ].
  split.
  { intros H0. apply due_iff. right. lia. }
  split.
  { intros H0 Hz ticks elapsed Hne.
    destruct (steps_shape ticks o l Hz) as (ys & o' & l' & -> & _ & Hcount & _).
    unfold object; cbn [fst snd]. unfold due.
    destruct ticks as [ | t rest ]; [ congruence | ].
    cbn [List.length] in Hcount.
    replace (SampleCount o' + 1 =? 1) with false by (symmetry; apply Z.eqb_neq; lia).
    apply orb_false_r. }
  intros H0 Hz env2 varargin2 Hearly.
  destruct (step_shape env varargin o l Hz) as (s & evs & Hstep & _).
  rewrite Hstep in *. unfold object, logged in *; cbn [fst snd] in *.
  set (o1 := if s =? 1 then _ else _) in *.
  assert (Ho1 : SampleCount o1 = 1 /\ timed o1 = true)
    by (subst o1; destruct (s =? 1); cbn; split; solve [ lia | auto ]).
  destruct Ho1 as (Hc1 & Hz1).
  apply (step_not_due env2 varargin2 o1 (l ++ evs)%list Hz1).
  unfold due. rewrite Hearly, Hc1. reflexivity.
Qed.

End Scheduler.

(** ** The connection *)

Section Connection.

Context `{Platform}.
Variable cfg : Nontunable.

(** [setupImpl] never raises.  It opens the session when the protocol is
    one of the two and the connection does not fail, and otherwise leaves
    the handle as it was with the connected flag down. *)
Lemma setupImpl_connection env o l :
  returned (setupImpl cfg env (o, l)) = Ok tt
  /\ LastSendTime (object (setupImpl cfg env (o, l))) = LastSendTime o
  /\ SampleCount (object (setupImpl cfg env (o, l))) = SampleCount o
  /\ match destination cfg, connect_fault env with
     | Some _, None =>
       IsConnected (object (setupImpl cfg env (o, l))) = true
       /\ exists c, TcpClient (object (setupImpl cfg env (o, l))) = Some c
     | _, _ =>
       IsConnected (object (setupImpl cfg env (o, l))) = false
       /\ TcpClient (object (setupImpl cfg env (o, l))) = TcpClient o
     end.
Proof.
  unfold setupImpl, connect, destination, returned, object.
  unfold bind, try_catch, lift, ret, error, emit, obj, assign.
  destruct (strcmp (TransportProtocol cfg) "tcp");
    [ | destruct (strcmp (TransportProtocol cfg) "udp") ];
    destruct (connect_fault env); cbn [fst snd];
    destruct (strcmpi (TimeSync cfg) "ntp"); cbn [fst snd];
    try destruct (system_fault env); cbn;
    repeat split; eauto.
Qed.

(** On a platform that does not subtract a datetime without a time zone
    from one with a time zone, no world that a block can be in has a time
    zone on its last send time or a transport write in its log: every tick
    of the block as it is written raises on line 77. *)
Lemma reachable_never_sends w :
  combines_zones = false ->
  reachable cfg w ->
  zoned (LastSendTime (fst w)) = false
  /\ existsb is_write (snd w) = false
  /\ forall env varargin,
       stepImpl cfg env varargin w
       = (Raise incompatible_zones, (counted (fst w), snd w)).
Proof.
  intros Hcz Hw.
  assert (Hinv : zoned (LastSendTime (fst w)) = false
                 /\ existsb is_write (snd w) = false).
  { induction Hw as [ | env [o l] _ [IHz IHl] | env varargin [o l] _ [IHz IHl]
                      | [o l] _ [IHz IHl] ]; cbn [fst snd] in *.
    - split; reflexivity.
    - destruct (setupImpl_connection env o l) as (_ & Hlast & _).
      unfold object in Hlast. rewrite Hlast. split; [ exact IHz | ].
      clear Hlast. revert IHl.
      unfold setupImpl, connect.
      unfold bind, try_catch, lift, ret, error, emit, obj, assign.
      destruct (strcmp (TransportProtocol cfg) "tcp");
        [ | destruct (strcmp (TransportProtocol cfg) "udp") ];
        destruct (connect_fault env); cbn [fst snd];
        destruct (strcmpi (TimeSync cfg) "ntp"); cbn [fst snd];
        try destruct (system_fault env); cbn [fst snd];
        intros IHl; rewrite ?existsb_app, ?IHl; reflexivity.
    - rewrite stepImpl_run. unfold timed. rewrite IHz, Hcz. cbn [fst snd orb].
      split; assumption.
    - split; [ reflexivity | exact IHl ]. }
  destruct Hinv as [Hz Hl]. repeat split; try assumption.
  intros env varargin. destruct w as [o l]. cbn [fst snd] in *.
  rewrite stepImpl_run. unfold timed. rewrite Hz, Hcz. reflexivity.
Qed.

(** C5. What the specification says of a tick on a session that was never
    opened, that it reports 0, does not hold of the code on MATLAB: every
    such tick of a block raises on line 77, before it comes to the test of
    [IsConnected] on line 172, whether the session was not opened because
    the connection failed, because the protocol is not one of the two, or
    because the block was never set up.  It is the defect of C1.  The code
    does attempt what the specification says: past line 77 such a tick
    ends with status 0, logging that it is not connected when it is due,
    and writes nothing; and [sendToTelegraf] on an empty handle fails at
    once under 'tcp' and 'udp', writing nothing and changing nothing, while
    under another protocol it returns, having written nothing. *)
Theorem unopened_session_tick_raises :
  combines_zones = false ->
  (forall w,
     reachable cfg w ->
     IsConnected (fst w) = false ->
     forall env varargin,
       stepImpl cfg env varargin w
       = (Raise incompatible_zones, (counted (fst w), snd w)))
  /\ (forall env0,
        destination cfg = None \/ connect_fault env0 <> None ->
        IsConnected (object (setupImpl cfg env0 (constructed, []))) = false
        /\ forall env varargin,
             stepImpl cfg env varargin (snd (setupImpl cfg env0 (constructed, [])))
             = (Raise incompatible_zones,
                (counted (object (setupImpl cfg env0 (constructed, []))),
                 logged (setupImpl cfg env0 (constructed, [])))))
  /\ (forall env varargin o l m,
        timed o = true ->
        IsConnected o = false ->
        measure cfg varargin = Ok m ->
        stepImpl cfg env varargin (o, l)
        = (Ok (0, posix_ns (nowUtc env)),
           (counted o,
            (l ++ if due cfg (elapsed_at env o) (SampleCount o + 1)
                  then [not_connected_note] else [])%list)))
  /\ (forall env str o l dest,
        TcpClient o = None ->
        destination cfg = Some dest ->
        sendToTelegraf cfg env str (o, l)
        = (Raise (send_failure no_session), (o, l)))
  /\ (forall env str o l,
        destination cfg = None ->
        sendToTelegraf cfg env str (o, l)
        = (Ok tt, (o, (l ++ [sent_note cfg str])%list))).
Proof.
  intros Hcz.
  split.
  { intros w Hw _ env varargin.
    apply (reachable_never_sends w Hcz Hw). }
  split.
  { intros env0 Hfail.
    assert (Hcon : IsConnected (object (setupImpl cfg env0 (constructed, [])))
                   = false).
    { destruct (setupImpl_connection env0 constructed []) as (_ & _ & _ & Hc).
      destruct (destination cfg) as [dest | ];
        [ destruct (connect_fault env0) | ]; try apply Hc.
      destruct Hfail as [Hf | Hf]; congruence. }
    split; [ exact Hcon | ].
    intros env varargin.
    apply (reachable_never_sends
             (snd (setupImpl cfg env0 (constructed, []))) Hcz).
    apply reach_setup, reach_constructed. }
  split.
  { intros env varargin o l m Hz Hcon Hm.
    destruct (due cfg (elapsed_at env o) (SampleCount o + 1)) eqn:Hdue.
    - rewrite (stepImpl_timed cfg env varargin o l Hz).
      rewrite (tick_not_connected cfg env varargin o l m Hm Hdue Hcon).
      reflexivity.
    - rewrite (step_not_due cfg env varargin o l Hz Hdue), Hm, app_nil_r.
      reflexivity. }
  split.
  { intros env str o l dest Hcl Hdest.
    rewrite sendToTelegraf_run, Hdest, Hcl. reflexivity. }
  intros env str o l Hdest.
  rewrite sendToTelegraf_run, Hdest. reflexivity.
Qed.

End Connection.

(** ** The gate and the transport *)

Section Gate.

Context `{Platform}.
Variable cfg : Nontunable.

(** A due tick of a connected block with a session, once the message is
    built: the write is made, and its fate decides the status. *)
Lemma step_sends env varargin o l m p str c dest :
  timed o = true ->
  measure cfg varargin = Ok m ->
  due cfg (elapsed_at env o) (SampleCount o + 1) = true ->
  IsConnected o = true ->
  encode cfg m (posix_ns (nowUtc env)) = Ok p ->
  seal cfg p (posix_ns (nowUtc env)) = Ok str ->
  destination cfg = Some dest ->
  TcpClient o = Some c ->
  stepImpl cfg env varargin (o, l) =
  match write_fault env with
  | None =>
    (Ok (1, posix_ns (nowUtc env)),
     (set_LastSendTime (nowUtc env) (counted o),
      (l ++ [write c (uint8 str) dest; sent_note cfg str])%list))
  | Some e =>
    (Ok (-1, posix_ns (nowUtc env)),
     (counted o,
      (l ++ [write c (uint8 str) dest; step_failure cfg (send_failure e)])%list))
  end.
Proof.
  intros Hz Hm Hdue Hcon Hp Hstr Hdest Hcl.
  rewrite (stepImpl_timed cfg env varargin o l Hz).
  rewrite (tick_sending cfg env varargin o l m Hm Hdue Hcon).
  rewrite Hp, Hstr, Hdest, Hcl.
  destruct (write_fault env); [ rewrite <- app_assoc | ]; reflexivity.
Qed.




Lemma steps_cons env varargin rest w :
  steps cfg ((env, varargin) :: rest) w =
  match stepImpl cfg env varargin w with
  | (Ok y, w') =>
    match steps cfg rest w' with
    | (Ok ys, w'') => (Ok (y :: ys), w'')
    | (Raise e, w'') => (Raise e, w'')
    end
  | (Raise e, w') => (Raise e, w')
  end.
Proof.
  cbn [steps]. unfold bind, ret.
  destruct (stepImpl cfg env varargin w) as [[y | e] w']; [ | reflexivity ].
  destruct (steps cfg rest w') as [[ys | e] w'']; reflexivity.
Qed.


End Gate.

(** ** Signing *)

Section Signing.

Context `{Platform}.
Variable cfg : Nontunable.

Lemma lower_chars l :
  list_ascii_of_string (lower (string_of_list_ascii l)) = map lower_char l.
Proof. induction l as [ | c l IH ]; cbn; [ | rewrite IH ]; reflexivity. Qed.

Lemma row_wide_digits b :
  forallb is_lower_hex (map lower_char (dec2hex_row 2 b)) = true.
Proof. destruct b; reflexivity. Qed.

Lemma row_narrow_digits b :
  (16 <=? Byte.to_N b)%N = false ->
  forallb is_lower_hex (map lower_char (dec2hex_row 1 b)) = true.
Proof. destruct b; intros Hb; first [ reflexivity | discriminate Hb ]. Qed.

(** The signature is made of lower-case hexadecimal digits. *)
Lemma hex_digits out :
  forallb is_lower_hex (list_ascii_of_string (hex out)) = true.
Proof.
  unfold hex. rewrite lower_chars. unfold dec2hex, dec2hex_width.
  destruct (existsb (fun b => (16 <=? Byte.to_N b)%N) out) eqn:Hwide.
  - clear Hwide. induction out as [ | b out IH ]; [ reflexivity | ].
    cbn [map List.concat]. rewrite map_app, forallb_app, IH, row_wide_digits.
    reflexivity.
  - induction out as [ | b out IH ]; [ reflexivity | ].
    cbn [existsb] in Hwide. apply orb_false_iff in Hwide as [Hb Hout].
    cbn [map List.concat]. rewrite map_app, forallb_app, (IH Hout).
    rewrite (row_narrow_digits b Hb). reflexivity.
Qed.

Lemma lower_string l :
  lower (string_of_list_ascii l) = string_of_list_ascii (map lower_char l).
Proof. induction l as [ | c l IH ]; cbn; [ | rewrite IH ]; reflexivity. Qed.

Lemma row_wide_lower b :
  map lower_char (dec2hex_row 2 b)
  = [lower_hex_digit (Byte.to_N b / 16); lower_hex_digit (Byte.to_N b mod 16)].
Proof. destruct b; reflexivity. Qed.

Lemma row_narrow_lower b :
  (16 <=? Byte.to_N b)%N = false ->
  map lower_char (dec2hex_row 1 b) = [lower_hex_digit (Byte.to_N b)].
Proof. destruct b; intros Hb; first [ reflexivity | discriminate Hb ]. Qed.

(** Line 276 against lower-case hexadecimal as its character codes give it:
    two digits per byte as soon as one byte is 16 or more, and one digit
    per byte otherwise. *)
Lemma hex_rendering out :
  hex out = if existsb (fun b => (16 <=? Byte.to_N b)%N) out
            then hex_lower out
            else hex_narrow out.
Proof.
  unfold hex, hex_lower, hex_narrow, dec2hex, dec2hex_width.
  rewrite lower_string.
  destruct (existsb (fun b => (16 <=? Byte.to_N b)%N) out) eqn:Hwide; f_equal.
  - clear Hwide. induction out as [ | b out IH ]; [ reflexivity | ].
    cbn [map List.concat flat_map]. rewrite map_app, IH, row_wide_lower.
    reflexivity.
  - induction out as [ | b out IH ]; [ reflexivity | ].
    cbn [existsb] in Hwide. apply orb_false_iff in Hwide as [Hb Hout].
    cbn [map List.concat]. rewrite map_app, (IH Hout), (row_narrow_lower b Hb).
    reflexivity.
Qed.

(** Lines 189-199. *)
Lemma seal_run payload ts :
  seal cfg payload ts =
  if isempty_char (HMACKey cfg) then Ok payload
  else
    match HmacSHA256 (uint8 (HMACKey cfg)) (uint8 payload) with
    | Raise e => Raise e
    | Ok mac =>
      Ok (jsonencode (MStruct [("payload", MChar payload);
                               ("hmac", MChar (hex mac));
                               ("meter_id", MChar (MeterId cfg));
                               ("timestamp_ns", MInt64 ts)]))
    end.
Proof.
  unfold seal, hmacSha256Hex, envelope.
  destruct (isempty_char (HMACKey cfg)); [ reflexivity | ].
  cbn [negb]. destruct (HmacSHA256 _ _); reflexivity.
Qed.

(** C8. For every payload and key.  Without a key what is handed to the
    transport is the payload as it is.  With a key it is the serialised
    envelope of the payload, of the HMAC-SHA256 of the bytes of the payload
    under the bytes of the key, of the meter id and of the timestamp; the
    HMAC is rendered in lower-case hexadecimal digits, two per byte as soon
    as one of its bytes is 16 or more (and one per byte otherwise: line 276
    pads to the widest byte only); and when the JVM's Mac raises, so does
    the signing.  Whatever the state of the block, the one write that a
    tick makes carries the bytes of exactly that string, built from the
    measurement of the inputs of that tick; and the write is made on a due
    tick of a connected block with its session, once line 77 has returned
    and the payload is encoded. *)
Theorem transmitted_bytes payload ts :
  (HMACKey cfg = "" -> seal cfg payload ts = Ok payload)
  /\ (HMACKey cfg <> "" ->
      (forall e,
         HmacSHA256 (list_byte_of_string (HMACKey cfg))
                    (list_byte_of_string payload) = Raise e ->
         seal cfg payload ts = Raise e)
      /\ (forall mac,
            HmacSHA256 (list_byte_of_string (HMACKey cfg))
                       (list_byte_of_string payload) = Ok mac ->
            seal cfg payload ts
            = Ok (jsonencode (MStruct [("payload", MChar payload);
                                       ("hmac", MChar (hex mac));
                                       ("meter_id", MChar (MeterId cfg));
                                       ("timestamp_ns", MInt64 ts)]))
            /\ forallb is_lower_hex (list_ascii_of_string (hex mac)) = true
            /\ hex mac = (if existsb (fun b => (16 <=? Byte.to_N b)%N) mac
                          then hex_lower mac
                          else hex_narrow mac)))
  /\ (forall env varargin o l,
      exists evs,
        logged (stepImpl cfg env varargin (o, l)) = (l ++ evs)%list
        /\ forall c data dest,
             In (write c data dest) evs ->
             filter is_write evs = [write c data dest]
             /\ exists m encoded str,
                  measure cfg varargin = Ok m
                  /\ encode cfg m (posix_ns (nowUtc env)) = Ok encoded
                  /\ seal cfg encoded (posix_ns (nowUtc env)) = Ok str
                  /\ data = list_byte_of_string str)
  /\ (forall env varargin o l m encoded str c dest,
      timed o = true ->
      measure cfg varargin = Ok m ->
      due cfg (elapsed_at env o) (SampleCount o + 1) = true ->
      IsConnected o = true ->
      TcpClient o = Some c ->
      destination cfg = Some dest ->
      encode cfg m (posix_ns (nowUtc env)) = Ok encoded ->
      seal cfg encoded (posix_ns (nowUtc env)) = Ok str ->
      exists evs,
        logged (stepImpl cfg env varargin (o, l))
        = (l ++ write c (list_byte_of_string str) dest :: evs)%list
        /\ existsb is_write evs = false).
Proof.
  split.
  { intros Hkey. rewrite seal_run, Hkey. reflexivity. }
  split.
  { intros Hkey.
    assert (Hne : isempty_char (HMACKey cfg) = false)
      by (destruct (HMACKey cfg); [ congruence | reflexivity ]).
    split.
    - intros e Hmac. rewrite seal_run, Hne. unfold uint8. rewrite Hmac.
      reflexivity.
    - intros mac Hmac. rewrite seal_run, Hne. unfold uint8. rewrite Hmac.
      split; [ reflexivity | ].
      split; [ apply hex_digits | apply hex_rendering ]. }
  split.
  { intros env varargin o l.
    destruct (stepImpl_writes cfg env varargin o l) as (evs & Hlog & Hw).
    exists evs. split; [ exact Hlog | ].
    intros c data dest Hin.
    destruct (Hw c data dest Hin)
      as (m & encoded & str & Hm & Hp & Hstr & Hdata & _ & _ & Hone).
    split; [ exact Hone | ].
    exists m, encoded, str. auto. }
  intros env varargin o l m encoded str c dest
         Hz Hm Hdue Hcon Hcl Hdest Hp Hstr.
  rewrite (step_sends cfg env varargin o l m encoded str c dest
             Hz Hm Hdue Hcon Hp Hstr Hdest Hcl).
  destruct (write_fault env); eexists; (split; reflexivity).
Qed.

End Signing.

(** ** The analysis *)

Section Analysis.

Variable cfg : Nontunable.

Lemma hann_length N : List.length (hann N) = N.
Proof.
  destruct N as [ | [ | N ] ]; [ reflexivity | reflexivity | ].
  unfold hann. rewrite length_map, length_seq. reflexivity.
Qed.

Lemma times_length xs :
  forall ys, List.length xs = List.length ys ->
             List.length (times xs ys) = List.length xs.
Proof.
  induction xs as [ | x xs IH ]; intros [ | y ys ] Hlen;
    cbn in *; try congruence.
  rewrite IH; congruence.
Qed.

Lemma windowed_length xs :
  List.length (times xs (hann (List.length xs))) = List.length xs.
Proof. apply times_length. symmetry. apply hann_length. Qed.

(** A bin within the window is the discrete Fourier sum at that bin. *)
Lemma index_fft x k :
  1 <= k <= Z.of_nat (List.length x) ->
  index (fft x) k = Ok (dft_bin x (Z.to_nat (k - 1))).
Proof.
  intros Hk. unfold index.
  destruct (k <? 1) eqn:Hlt; [ apply Z.ltb_lt in Hlt; lia | ].
  unfold fft.
  rewrite nth_error_map.
  rewrite (nth_error_nth' _ 0%nat) by (rewrite length_seq; lia).
  rewrite seq_nth by lia. reflexivity.
Qed.

Lemma round_nonneg q : (0 <= q)%Q -> 0 <= round q.
Proof.
  intros Hq. unfold round.
  apply Qle_bool_iff in Hq as Hb. rewrite Hb.
  change 0 with (Qfloor 0). apply Qfloor_resp_le.
  rewrite <- (Qplus_0_r 0) at 1. apply Qplus_le_compat; [ exact Hq | discriminate ].
Qed.

Lemma cycles_nonneg N :
  (0 < SamplingRate cfg)%Q -> (0 <= FundamentalFreq cfg)%Q -> 0 <= cycles cfg N.
Proof.
  intros Hfs Hf. apply round_nonneg.
  apply Qle_shift_div_l; [ exact Hfs | ].
  rewrite Qmult_0_l. apply Qmult_le_0_compat; [ exact Hf | ].
  change 0%Q with (inject_Z 0). rewrite <- Zle_Qle. lia.
Qed.

(** Lines 111-118: the one-based bin. *)
Lemma kFund_run N :
  ~ (SamplingRate cfg == 0)%Q ->
  kFund cfg N = Some (fundamental_bin cfg N).
Proof.
  intros Hfs. unfold kFund, fundamental_bin, cycles.
  destruct (Qeq_bool (SamplingRate cfg) 0) eqn:Hz;
    [ apply Qeq_bool_iff in Hz; contradiction | ].
  rewrite Z.add_simpl_r. reflexivity.
Qed.

Lemma kFund_range N :
  (0 < N)%nat -> 0 <= cycles cfg N ->
  1 <= fundamental_bin cfg N <= Z.of_nat N.
Proof.
  intros HN Hc. unfold fundamental_bin.
  destruct (Z.of_nat N <? cycles cfg N + 1) eqn:Hwrap.
  - assert (0 <= cycles cfg N mod Z.of_nat N < Z.of_nat N)
      by (apply Z.mod_pos_bound; lia).
    lia.
  - apply Z.ltb_ge in Hwrap. lia.
Qed.


(** Lines 87-132 on a window that passes the check of line 87. *)
Lemma analyze_run v i :
  v <> [] ->
  List.length v = List.length i ->
  ~ (SamplingRate cfg == 0)%Q ->
  0 <= cycles cfg (List.length v) ->
  analyze cfg v i =
  let N := List.length v in
  let n := INR N in
  let k := fundamental_bin cfg N in
  let V1 := dft_bin (windowed v) (Z.to_nat (k - 1)) in
  let I1 := dft_bin (windowed i) (Z.to_nat (k - 1)) in
  Ok {| wN := N;
        Vrms := sqrt (mean (sq (windowed v)));
        Irms := sqrt (mean (sq (windowed i)));
        P_inst := mean (times (windowed v) (windowed i));
        wkFund := Some k;
        V1 := V1;
        I1 := I1;
        S_fund := (Cabs V1 * Cabs I1 / n ^ 2)%R;
        Vrms_fund := (Cabs V1 / n / sqrt 2)%R;
        Irms_fund := (Cabs I1 / n / sqrt 2)%R;
        S := (Cabs V1 / n / sqrt 2 * (Cabs I1 / n / sqrt 2))%R;
        P_fund := (real (Cmul V1 (conj I1)) / n ^ 2)%R;
        Q_fund := (imag (Cmul V1 (conj I1)) / n ^ 2)%R |}.
Proof.
  intros Hv Hlen Hfs Hc.
  assert (HN : (0 < List.length v)%nat)
    by (destruct v; [ congruence | cbn; lia ]).
  pose proof (kFund_range (List.length v) HN Hc) as Hk.
  unfold analyze, validate.
  destruct v as [ | v0 v ]; [ congruence | ].
  destruct i as [ | i0 i ]; [ discriminate Hlen | ].
  rewrite Hlen, Nat.eqb_refl. cbn [orb negb]. rewrite <- Hlen.
  cbv zeta. rewrite (kFund_run _ Hfs). unfold bin.
  fold (windowed (v0 :: v)).
  replace (times (i0 :: i) (hann (List.length (v0 :: v)))) with (windowed (i0 :: i))
    by (unfold windowed; rewrite Hlen; reflexivity).
  rewrite !index_fft; [ reflexivity | | ]; unfold windowed;
    rewrite windowed_length; lia.
Qed.


Lemma fs_nonzero : (0 < SamplingRate cfg)%Q -> ~ (SamplingRate cfg == 0)%Q.
Proof. intros Hfs Hz. rewrite Hz in Hfs. discriminate Hfs. Qed.

(** The check of line 87. *)
Lemma validate_iff v i :
  validate v i = Raise InvalidWindow
  <-> v = [] \/ i = [] \/ List.length v <> List.length i.
Proof.
  unfold validate. destruct v as [ | v0 v ], i as [ | i0 i ]; cbn [orb].
  - intuition.
  - intuition.
  - intuition.
  - destruct (List.length (v0 :: v) =? List.length (i0 :: i))%nat eqn:Hlen;
      cbn [negb].
    + apply Nat.eqb_eq in Hlen. split; [ discriminate | ].
      intros [Hv | [Hi | Hne]]; congruence.
    + apply Nat.eqb_neq in Hlen. intuition.
Qed.

Lemma index_raises {A} (xs : list A) k e :
  index xs k = Raise e -> e <> InvalidWindow.
Proof.
  unfold index.
  destruct (k <? 1); [ intros [= <-]; discriminate | ].
  destruct (nth_error xs _); [ discriminate | intros [= <-]; discriminate ].
Qed.

Lemma bin_raises {A} (xs : list A) k e :
  bin xs k = Raise e -> e <> InvalidWindow.
Proof.
  destruct k as [ k | ]; cbn [bin];
    [ apply index_raises | intros [= <-]; discriminate ].
Qed.

Lemma analyze_invalid_iff v i :
  analyze cfg v i = Raise InvalidWindow
  <-> v = [] \/ i = [] \/ List.length v <> List.length i.
Proof.
  rewrite <- validate_iff. unfold analyze.
  destruct (validate v i) as [ [] | e ] eqn:Hval.
  - split; [ | discriminate ].
    cbv zeta.
    destruct (bin (fft _) _) eqn:Hb1.
    + destruct (bin (fft (times i _)) _) eqn:Hb2; [ discriminate | ].
      intros [= ->]. now apply bin_raises in Hb2.
    + intros [= ->]. now apply bin_raises in Hb1.
  - split; intros [= ->]; reflexivity.
Qed.

(** C2 (amended). In waveform mode the analysis fails with InvalidWindow
    exactly when the voltage sequence is empty, the current sequence is
    empty, or the two lengths differ, and then the tick, once line 77 has
    returned, ends with status -1.
    There is no guard on lengths below 2: every pair of non-empty sequences
    of equal length, of length 1 included, is analysed and yields a result,
    for a positive sampling rate and a non-negative nominal frequency. *)
Theorem window_validation `{Platform} v i :
  (analyze cfg v i = Raise InvalidWindow
   <-> v = [] \/ i = [] \/ List.length v <> List.length i)
  /\ (v <> [] -> List.length v = List.length i ->
      (0 < SamplingRate cfg)%Q -> (0 <= FundamentalFreq cfg)%Q ->
      exists a, analyze cfg v i = Ok a /\ wN a = List.length v)
  /\ (UseWaveformInput cfg = true ->
      v = [] \/ i = [] \/ List.length v <> List.length i ->
      forall env rest o l,
        timed o = true ->
        stepImpl cfg env (v :: i :: rest) (o, l)
        = (Ok (-1, posix_ns (nowUtc env)),
           (counted o, (l ++ [step_failure cfg InvalidWindow])%list))).
Proof.
  split; [ apply analyze_invalid_iff | ].
  split.
  - intros Hv Hlen Hfs Hf.
    rewrite (analyze_run v i Hv Hlen (fs_nonzero Hfs)
               (cycles_nonneg _ Hfs Hf)).
    cbv zeta. eexists. split; reflexivity.
  - intros Hmode Hbad env rest o l Hz.
    apply analyze_invalid_iff in Hbad.
    rewrite (stepImpl_timed cfg env _ o l Hz).
    rewrite (tick_invalid cfg env _ _ _ InvalidWindow); [ reflexivity | ].
    unfold measure. rewrite Hmode.
    change (index (v :: i :: rest) 1) with (Ok v).
    change (index (v :: i :: rest) 2) with (Ok i).
    cbv beta iota. rewrite Hbad. reflexivity.
Qed.

(** C4 (amended). For a window of N >= 1 samples, a positive sampling rate
    fs and a non-negative nominal frequency f, the analysis reads both
    transforms of the Hann-windowed sequences at the one-based bin
    k = round(f * N / fs) + 1, replaced by ((k - 1) mod N) + 1 when k exceeds
    N; k lies in [1, N], and V1 and I1 are the discrete Fourier sums at the
    zero-based bin k - 1.  It reports Vrms_fund = |V1|/N/sqrt(2),
    Irms_fund = |I1|/N/sqrt(2), S = Vrms_fund * Irms_fund,
    P_fund = Re(V1 * conj(I1))/N^2 and Q_fund = Im(V1 * conj(I1))/N^2. *)
Theorem fundamental_phasors v i :
  v <> [] ->
  List.length v = List.length i ->
  (0 < SamplingRate cfg)%Q ->
  (0 <= FundamentalFreq cfg)%Q ->
  exists a k,
    analyze cfg v i = Ok a
    /\ wkFund a = Some k
    /\ k = (let r := round (FundamentalFreq cfg
                            * inject_Z (Z.of_nat (List.length v))
                            / SamplingRate cfg) in
            if Z.of_nat (List.length v) <? r + 1
            then (r + 1 - 1) mod Z.of_nat (List.length v) + 1
            else r + 1)
    /\ 1 <= k <= Z.of_nat (List.length v)
    /\ V1 a = dft_bin (windowed v) (Z.to_nat (k - 1))
    /\ I1 a = dft_bin (windowed i) (Z.to_nat (k - 1))
    /\ Vrms_fund a = (Cabs (V1 a) / INR (List.length v) / sqrt 2)%R
    /\ Irms_fund a = (Cabs (I1 a) / INR (List.length v) / sqrt 2)%R
    /\ S a = (Vrms_fund a * Irms_fund a)%R
    /\ P_fund a = (real (Cmul (V1 a) (conj (I1 a))) / INR (List.length v) ^ 2)%R
    /\ Q_fund a = (imag (Cmul (V1 a) (conj (I1 a))) / INR (List.length v) ^ 2)%R
    /\ real (Cmul (V1 a) (conj (I1 a)))
       = (real (V1 a) * real (I1 a) + imag (V1 a) * imag (I1 a))%R
    /\ imag (Cmul (V1 a) (conj (I1 a)))
       = (imag (V1 a) * real (I1 a) - real (V1 a) * imag (I1 a))%R.
Proof.
  intros Hv Hlen Hfs Hf.
  assert (HN : (0 < List.length v)%nat)
    by (destruct v; [ congruence | cbn; lia ]).
  pose proof (cycles_nonneg (List.length v) Hfs Hf) as Hc.
  rewrite (analyze_run v i Hv Hlen (fs_nonzero Hfs) Hc). cbv zeta.
  eexists. exists (fundamental_bin cfg (List.length v)).
  split; [ reflexivity | ].
  split; [ reflexivity | ].
  split.
  { unfold fundamental_bin, cycles. rewrite Z.add_simpl_r. reflexivity. }
  split; [ exact (kFund_range _ HN Hc) | ].
  cbn [V1 I1 Vrms_fund Irms_fund S P_fund Q_fund].
  repeat (split; [ reflexivity | ]).
  split; cbn; ring.
Qed.

End Analysis.

(** ** A window of four samples, worked out *)

Lemma hann_4 : hann 4 = [0; 3 / 4; 3 / 4; 0]%R.
Proof.
  unfold hann. cbn [seq map Nat.sub INR].
  replace (2 * PI * 0 / (1 + 1 + 1))%R with 0%R by field.
  replace (2 * PI * 1 / (1 + 1 + 1))%R with (2 * (PI / 3))%R by field.
  replace (2 * PI * (1 + 1) / (1 + 1 + 1))%R with (PI / 3 + PI)%R by field.
  replace (2 * PI * (1 + 1 + 1) / (1 + 1 + 1))%R with (2 * PI)%R by field.
  rewrite cos_0, cos_2PI3, neg_cos, cos_PI3, cos_2PI.
  repeat (apply (f_equal2 (@cons R)); [ lra | ]). reflexivity.
Qed.

Lemma windowed_4 : windowed [0; 1; 1; 0]%R = [0; 3 / 4; 3 / 4; 0]%R.
Proof.
  unfold windowed. cbn [List.length]. rewrite hann_4. cbn [times].
  repeat (apply (f_equal2 (@cons R)); [ lra | ]). reflexivity.
Qed.

(** The bin at zero frequency and the first bin of that window. *)
Lemma dft_4_bin_0 : dft_bin [0; 3 / 4; 3 / 4; 0]%R 0 = Cplx (3 / 2)%R 0%R.
Proof.
  unfold dft_bin, twiddle.
  cbn [List.length seq combine map fold_right fst snd INR].
  unfold Cscale, Cadd; cbn [real imag].
  replace (2 * PI * 0 * 0 / (1 + 1 + 1 + 1))%R with 0%R by field.
  replace (2 * PI * 0 * 1 / (1 + 1 + 1 + 1))%R with 0%R by field.
  replace (2 * PI * 0 * (1 + 1) / (1 + 1 + 1 + 1))%R with 0%R by field.
  replace (2 * PI * 0 * (1 + 1 + 1) / (1 + 1 + 1 + 1))%R with 0%R by field.
  rewrite cos_0, sin_0.
  apply (f_equal2 Cplx); lra.
Qed.

Lemma dft_4_bin_1 :
  dft_bin [0; 3 / 4; 3 / 4; 0]%R 1 = Cplx (- 3 / 4)%R (- 3 / 4)%R.
Proof.
  unfold dft_bin, twiddle.
  cbn [List.length seq combine map fold_right fst snd INR].
  unfold Cscale, Cadd; cbn [real imag].
  replace (2 * PI * 1 * 1 / (1 + 1 + 1 + 1))%R with (PI / 2)%R by field.
  replace (2 * PI * 1 * (1 + 1) / (1 + 1 + 1 + 1))%R with PI by field.
  rewrite cos_PI2, sin_PI2, cos_PI, sin_PI.
  apply (f_equal2 Cplx); lra.
Qed.

(** ** Setup, release and the session *)

Section Session.

Context `{Platform}.
Variable cfg : Nontunable.

Ltac run_meth :=
  unfold bind, try_catch, lift, ret, error, emit, obj, assign; cbn [fst snd].

Lemma configured_destination :
  destination cfg = None <-> configured_client cfg = None.
Proof.
  unfold destination, configured_client.
  destruct (strcmp (TransportProtocol cfg) "tcp");
    [ | destruct (strcmp (TransportProtocol cfg) "udp") ];
    split; first [ discriminate | reflexivity ].
Qed.

(** Lines 32-53: the connection part of [setupImpl], and what follows. *)
Lemma setupImpl_run env o l :
  exists ntp,
    setupImpl cfg env (o, l) =
    (Ok tt,
     match configured_client cfg, connect_fault env with
     | Some c, None =>
       (set_IsConnected true (set_TcpClient (Some c) o),
        (l ++ match c with
              | tcpclient _ _ =>
                disp (tag cfg ++ "Connected to Telegraf via TCP at "
                      ++ TelegrafHost cfg ++ ":" ++ num2str (TelegrafPort cfg))
              | udpport _ =>
                disp (tag cfg ++ "Configured for UDP to "
                      ++ TelegrafHost cfg ++ ":" ++ num2str (TelegrafPort cfg))
              end :: ntp)%list)
     | Some _, Some e =>
       (set_IsConnected false o, (l ++ connection_failure cfg e :: ntp)%list)
     | None, _ =>
       (set_IsConnected false o,
        (l ++ connection_failure cfg
                (ME ("Unsupported transport protocol. Use " ++ dq ++ "tcp" ++ dq
                     ++ " or " ++ dq ++ "udp" ++ dq ++ "."))
           :: ntp)%list)
     end)
    /\ existsb is_write ntp = false
    /\ existsb is_system ntp = strcmpi (TimeSync cfg) "ntp".
Proof.
  unfold setupImpl, connect, configured_client, connection_failure.
  run_meth.
  destruct (strcmpi (TimeSync cfg) "ntp").
  - exists (system "ntpdate -q pool.ntp.org"
            :: match system_fault env with
               | Some _ => [warning "[SmartMeter] NTP request failed or not permitted."]
               | None => [disp "[SmartMeter] Attempted NTP time query (system call)."]
               end).
    split; [ | split; [ destruct (system_fault env) | ]; reflexivity ].
    destruct (strcmp (TransportProtocol cfg) "tcp");
      [ | destruct (strcmp (TransportProtocol cfg) "udp") ];
      destruct (connect_fault env); cbn [fst snd];
      destruct (system_fault env); cbn [fst snd];
      rewrite <- ?app_assoc; reflexivity.
  - exists []. split; [ | split; reflexivity ].
    destruct (strcmp (TransportProtocol cfg) "tcp");
      [ | destruct (strcmp (TransportProtocol cfg) "udp") ];
      destruct (connect_fault env); cbn [fst snd]; reflexivity.
Qed.

(** X2. [setupImpl] never raises, writes nothing to the transport and
    leaves [LastSendTime] and [SampleCount] alone.  The block is connected
    afterwards exactly when the protocol is 'tcp' or 'udp', spelled so, and
    the transport object could be made, and then the handle is that object.
    Otherwise the failure is logged as a warning, [IsConnected] is false and
    the handle is the one the block had before.  The NTP query is made
    exactly when [TimeSync] is 'ntp' in any case of letters, and its fate
    changes nothing of the object. *)
Theorem setup_outcome env o l :
  returned (setupImpl cfg env (o, l)) = Ok tt
  /\ LastSendTime (object (setupImpl cfg env (o, l))) = LastSendTime o
  /\ SampleCount (object (setupImpl cfg env (o, l))) = SampleCount o
  /\ (IsConnected (object (setupImpl cfg env (o, l))) = true
      <-> configured_client cfg <> None /\ connect_fault env = None)
  /\ (IsConnected (object (setupImpl cfg env (o, l))) = true ->
      TcpClient (object (setupImpl cfg env (o, l))) = configured_client cfg)
  /\ (IsConnected (object (setupImpl cfg env (o, l))) = false ->
      TcpClient (object (setupImpl cfg env (o, l))) = TcpClient o
      /\ exists e evs,
           logged (setupImpl cfg env (o, l))
           = (l ++ connection_failure cfg e :: evs)%list)
  /\ (exists evs,
        logged (setupImpl cfg env (o, l)) = (l ++ evs)%list
        /\ existsb is_write evs = false
        /\ existsb is_system evs = strcmpi (TimeSync cfg) "ntp").
Proof.
  destruct (setupImpl_run env o l) as (ntp & -> & Hw & Hs).
  unfold returned, object, logged; cbn [fst snd].
  destruct (configured_client cfg) as [c | ]; [ destruct (connect_fault env) | ];
    cbn [fst snd IsConnected TcpClient LastSendTime SampleCount
         set_IsConnected set_TcpClient].
  - repeat split; try discriminate; try solve [ intros [_ Hf]; discriminate Hf ].
    + eauto.
    + eexists. split; [ reflexivity | ]. cbn [existsb is_write is_system orb].
      split; assumption.
  - repeat split; try discriminate.
    destruct c; eexists; (split; [ reflexivity | ]);
      cbn [existsb is_write is_system orb]; split; assumption.
  - repeat split; try discriminate; try solve [ intros [Hf _]; congruence ].
    + eauto.
    + eexists. split; [ reflexivity | ]. cbn [existsb is_write is_system orb].
      split; assumption.
Qed.

(** Lines 294-308. *)
Lemma releaseImpl_run out o l :
  releaseImpl cfg out (o, l) =
  (Ok tt,
   (o,
    match TcpClient o with
    | None => l
    | Some _ =>
      match (if strcmp (TransportProtocol cfg) "tcp"
             then clear_fault out else close_fault out) with
      | None => (l ++ [closed_note cfg])%list
      | Some e => (l ++ [closing_failure e])%list
      end
    end)).
Proof.
  unfold releaseImpl, closed_note, closing_failure. run_meth.
  destruct (TcpClient o); [ | reflexivity ].
  destruct (if strcmp (TransportProtocol cfg) "tcp" then _ else _); reflexivity.
Qed.

(** X3. [releaseImpl] never raises and assigns no property: the handle and
    [IsConnected] are afterwards what they were, so that a send made after
    the release fares as it would have before.  Without a handle it does
    nothing at all; with one it logs one event, the closing note when
    [clear] (for 'tcp') or [close] (otherwise) returned and a warning when
    it raised, and writes nothing. *)
Theorem release_keeps_object out env str o l :
  returned (releaseImpl cfg out (o, l)) = Ok tt
  /\ object (releaseImpl cfg out (o, l)) = o
  /\ (TcpClient o = None -> logged (releaseImpl cfg out (o, l)) = l)
  /\ (forall c, TcpClient o = Some c ->
      exists ev,
        logged (releaseImpl cfg out (o, l)) = (l ++ [ev])%list
        /\ (ev = closed_note cfg \/ exists e, ev = closing_failure e)
        /\ (ev = closed_note cfg
            <-> (if strcmp (TransportProtocol cfg) "tcp"
                 then clear_fault out else close_fault out) = None))
  /\ returned (sendToTelegraf cfg env str (snd (releaseImpl cfg out (o, l))))
     = returned (sendToTelegraf cfg env str (o, l)).
Proof.
  rewrite releaseImpl_run. unfold returned, object, logged; cbn [fst snd].
  split; [ reflexivity | ].
  split; [ reflexivity | ].
  split; [ intros ->; reflexivity | ].
  split.
  - intros c ->.
    destruct (if strcmp (TransportProtocol cfg) "tcp" then _ else _) as [e | ].
    + exists (closing_failure e). split; [ reflexivity | ].
      split; [ right; eauto | ]. split; discriminate.
    + exists (closed_note cfg). split; [ reflexivity | ].
      split; [ left; reflexivity | ]. split; reflexivity.
  - rewrite !sendToTelegraf_run.
    destruct (destination cfg); [ | reflexivity ].
    destruct (TcpClient o); [ | reflexivity ].
    destruct (write_fault env); reflexivity.
Qed.

(** What a tick leaves of the object, whether it returns or raises. *)
Lemma stepImpl_object env varargin o l :
  TcpClient (object (stepImpl cfg env varargin (o, l))) = TcpClient o
  /\ IsConnected (object (stepImpl cfg env varargin (o, l))) = IsConnected o
  /\ SampleCount (object (stepImpl cfg env varargin (o, l))) = SampleCount o + 1
  /\ (LastSendTime (object (stepImpl cfg env varargin (o, l))) = LastSendTime o
      \/ LastSendTime (object (stepImpl cfg env varargin (o, l))) = utc (clock env)).
Proof.
  rewrite stepImpl_run.
  destruct (timed o) eqn:Hz; [ | unfold object; cbn; auto ].
  rewrite <- (stepImpl_timed cfg env varargin o l Hz).
  destruct (step_shape cfg env varargin o l Hz) as (s & evs & -> & _).
  unfold object; cbn [fst snd].
  destruct (s =? 1); cbn; auto.
Qed.

(** X4. In every world that a block can be in, the counter is not
    negative, [LastSendTime] is the epoch or a UTC instant, and a connected
    block holds the transport object of its configuration, under a protocol
    that [sendToTelegraf] knows: a send never finds an empty handle, it
    makes its write, and fails only if the write does. *)
Theorem connected_has_session w :
  reachable cfg w ->
  0 <= SampleCount (fst w)
  /\ (LastSendTime (fst w) = epoch \/ exists t, LastSendTime (fst w) = utc t)
  /\ (IsConnected (fst w) = true ->
      exists c dest,
        configured_client cfg = Some c
        /\ TcpClient (fst w) = Some c
        /\ destination cfg = Some dest
        /\ forall env str,
             sendToTelegraf cfg env str w
             = match write_fault env with
               | Some e =>
                 (Raise (send_failure e),
                  (fst w, (snd w ++ [write c (uint8 str) dest])%list))
               | None =>
                 (Ok tt,
                  (fst w, (snd w ++ [write c (uint8 str) dest;
                                     sent_note cfg str])%list))
               end).
Proof.
  intros Hw.
  assert (Hinv : 0 <= SampleCount (fst w)
                 /\ (LastSendTime (fst w) = epoch
                     \/ exists t, LastSendTime (fst w) = utc t)
                 /\ (IsConnected (fst w) = true ->
                     exists c, configured_client cfg = Some c
                               /\ TcpClient (fst w) = Some c)).
  { induction Hw as [ | env [o l] _ (IHc & IHt & IHs)
                      | env varargin [o l] _ (IHc & IHt & IHs)
                      | [o l] _ (IHc & IHt & IHs) ]; cbn [fst snd] in *.
    - split; [ reflexivity | ]. split; [ auto | discriminate ].
    - destruct (setupImpl_run env o l) as (ntp & -> & _).
      destruct (configured_client cfg) as [c | ];
        [ destruct (connect_fault env) | ]; cbn; repeat split; auto;
        try discriminate.
      eauto.
    - destruct (stepImpl_object env varargin o l) as (Hc & Hi & Hn & Ht).
      unfold object in *. rewrite Hc, Hi, Hn.
      split; [ lia | ]. split; [ | exact IHs ].
      destruct Ht as [-> | ->]; [ exact IHt | eauto ].
    - split; [ reflexivity | ]. split; [ auto | exact IHs ]. }
  destruct Hinv as (Hc & Ht & Hs). repeat split; try assumption.
  intros Hcon. destruct (Hs Hcon) as (c & Hcfg & Hcl).
  destruct (destination cfg) as [dest | ] eqn:Hdest.
  2:{ apply configured_destination in Hdest. congruence. }
  exists c, dest. repeat split; try assumption.
  intros env str. destruct w as [o l]. cbn [fst snd] in *.
  rewrite sendToTelegraf_run, Hdest, Hcl. reflexivity.
Qed.

(** X5. [sendToTelegraf] never changes the object.  What it raises is
    always the failure of line 290 around a cause, and then no note of
    success is logged; when it returns, the note of line 288 is the last
    thing logged.  It writes at most once, to the handle of the block, the
    bytes of its argument: to the stream for 'tcp', to the configured host
    and port for 'udp'.  Under any other protocol it writes nothing, and
    yet logs the note of success and returns. *)
Theorem send_outcomes env str o l :
  object (sendToTelegraf cfg env str (o, l)) = o
  /\ (forall e, returned (sendToTelegraf cfg env str (o, l)) = Raise e ->
      exists cause,
        e = send_failure cause
        /\ (logged (sendToTelegraf cfg env str (o, l)) = l
            \/ exists c dest,
                 logged (sendToTelegraf cfg env str (o, l))
                 = (l ++ [write c (uint8 str) dest])%list))
  /\ (returned (sendToTelegraf cfg env str (o, l)) = Ok tt ->
      exists evs,
        logged (sendToTelegraf cfg env str (o, l))
        = (l ++ evs ++ [sent_note cfg str])%list)
  /\ (exists evs,
        logged (sendToTelegraf cfg env str (o, l)) = (l ++ evs)%list
        /\ (List.length (filter is_write evs) <= 1)%nat
        /\ forall c data dest,
             In (write c data dest) evs ->
             TcpClient o = Some c /\ data = uint8 str
             /\ destination cfg = Some dest)
  /\ (destination cfg = None ->
      sendToTelegraf cfg env str (o, l)
      = (Ok tt, (o, (l ++ [sent_note cfg str])%list)))
  /\ (strcmp (TransportProtocol cfg) "tcp" = true ->
      destination cfg = Some None)
  /\ (strcmp (TransportProtocol cfg) "tcp" = false ->
      strcmp (TransportProtocol cfg) "udp" = true ->
      destination cfg = Some (Some (TelegrafHost cfg, TelegrafPort cfg))).
Proof.
  rewrite sendToTelegraf_run.
  split.
  { destruct (destination cfg); [ | reflexivity ].
    destruct (TcpClient o); [ | reflexivity ].
    destruct (write_fault env); reflexivity. }
  split.
  { intros e.
    destruct (destination cfg); [ | discriminate ].
    destruct (TcpClient o); unfold returned, logged; cbn [fst snd].
    - destruct (write_fault env) as [cause | ]; [ | discriminate ].
      intros [= <-]. exists cause. split; [ reflexivity | right; do 2 eexists; reflexivity ].
    - intros [= <-]. exists no_session. split; [ reflexivity | left; reflexivity ]. }
  split.
  { destruct (destination cfg) as [dest | ].
    - destruct (TcpClient o) as [c | ]; [ | discriminate ].
      destruct (write_fault env); [ discriminate | ].
      intros _. exists [write c (uint8 str) dest]. reflexivity.
    - intros _. exists []. reflexivity. }
  split.
  { destruct (destination cfg) as [dest | ].
    - destruct (TcpClient o) as [c | ].
      + destruct (write_fault env); eexists; (split; [ reflexivity | ]);
          (split; [ cbn; lia | ]);
          intros c' data dest' [[= <- <- <-] | Hin]; auto;
          try (destruct Hin as [[=] | []]); try destruct Hin.
      + exists []. unfold logged; cbn [fst snd]. rewrite app_nil_r.
        split; [ reflexivity | ]. split; [ cbn; lia | intros ? ? ? [] ].
    - eexists. split; [ reflexivity | ]. split; [ cbn; lia | ].
      intros c data dest [[=] | []]. }
  split; [ intros ->; reflexivity | ].
  unfold destination.
  split; [ intros ->; reflexivity | intros -> ->; reflexivity ].
Qed.

(** X6. Setup, then the first tick of a block whose counter is zero, on
    accepted inputs and once line 77 has returned.  If the setup left the
    block unconnected, the tick logs that it is not connected and returns
    0.  If it connected, the tick, whatever the time elapsed, writes the
    message to the transport object that the setup made and returns 1,
    when the message can be built and the write does not fail. *)
Theorem setup_then_first_tick env0 env varargin o l m :
  timed o = true ->
  SampleCount o = 0 ->
  measure cfg varargin = Ok m ->
  (IsConnected (object (setupImpl cfg env0 (o, l))) = false ->
   stepImpl cfg env varargin (snd (setupImpl cfg env0 (o, l)))
   = (Ok (0, posix_ns (nowUtc env)),
      (counted (object (setupImpl cfg env0 (o, l))),
       (logged (setupImpl cfg env0 (o, l)) ++ [not_connected_note])%list)))
  /\ (IsConnected (object (setupImpl cfg env0 (o, l))) = true ->
      forall p str,
        encode cfg m (posix_ns (nowUtc env)) = Ok p ->
        seal cfg p (posix_ns (nowUtc env)) = Ok str ->
        write_fault env = None ->
        exists c dest,
          configured_client cfg = Some c
          /\ destination cfg = Some dest
          /\ stepImpl cfg env varargin (snd (setupImpl cfg env0 (o, l)))
             = (Ok (1, posix_ns (nowUtc env)),
                (set_LastSendTime (nowUtc env)
                   (counted (object (setupImpl cfg env0 (o, l)))),
                 (logged (setupImpl cfg env0 (o, l))
                  ++ [write c (uint8 str) dest; sent_note cfg str])%list))).
Proof.
  intros Hz Hcount Hm.
  destruct (setupImpl_run env0 o l) as (ntp & Hrun & _).
  destruct (setupImpl cfg env0 (o, l)) as [r [o' l']].
  injection Hrun as _ Hw.
  unfold object, logged; cbn [fst snd].
  assert (Hkeep : timed o' = true /\ SampleCount o' = 0).
  { destruct (configured_client cfg) as [c | ];
      [ destruct (connect_fault env0) | ];
      injection Hw as -> _; auto. }
  destruct Hkeep as [Hz' Hcount'].
  assert (Hdue : due cfg (elapsed_at env o') (SampleCount o' + 1) = true)
    by (apply due_iff; right; lia).
  split.
  - intros Hcon. rewrite (stepImpl_timed cfg env varargin o' l' Hz').
    rewrite (tick_not_connected cfg env varargin o' l' m Hm Hdue Hcon).
    reflexivity.
  - intros Hcon p str Hp Hstr Hok.
    destruct (configured_client cfg) as [c | ] eqn:Hcfg;
      [ destruct (connect_fault env0) | ];
      injection Hw as Ho' _; subst o'; try discriminate Hcon.
    destruct (destination cfg) as [dest | ] eqn:Hdest.
    2:{ apply configured_destination in Hdest. congruence. }
    exists c, dest. split; [ reflexivity | ]. split; [ reflexivity | ].
    rewrite (step_sends cfg env varargin _ l' m p str c dest
               Hz' Hm Hdue Hcon Hp Hstr Hdest eq_refl), Hok.
    reflexivity.
Qed.

End Session.

(** ** After a send error *)

Section AfterSendError.

Context `{Platform}.
Variable cfg : Nontunable.

(** C6 (amended). A send error on an established session leaves the
    connection as it was: [sendToTelegraf] raises having made its write and
    changes nothing of the object, and the tick that called it returns -1
    with [IsConnected] true, the session handle kept and [LastSendTime] not
    moved.  There is no failed state: [stepImpl], [sendToTelegraf],
    [resetImpl] and [releaseImpl] never assign [IsConnected] or the handle,
    which leaves [setupImpl] alone to do so.  A later send is a fresh
    transport attempt on the same session, and succeeds when its write
    does; a later due tick on accepted inputs whose message can be built
    writes again, and returns 1 when that write succeeds and -1 when it
    fails; and a tick that was due by elapsed time stays due at every
    later instant. *)
Theorem send_error_keeps_session env str o l c dest e :
  TcpClient o = Some c ->
  destination cfg = Some dest ->
  write_fault env = Some e ->
  sendToTelegraf cfg env str (o, l)
  = (Raise (send_failure e), (o, (l ++ [write c (uint8 str) dest])%list))
  /\ (forall env2 str2 l2,
        write_fault env2 = None ->
        sendToTelegraf cfg env2 str2 (o, l2)
        = (Ok tt,
           (o, (l2 ++ [write c (uint8 str2) dest; sent_note cfg str2])%list)))
  /\ (forall varargin m p,
        timed o = true ->
        IsConnected o = true ->
        measure cfg varargin = Ok m ->
        due cfg (elapsed_at env o) (SampleCount o + 1) = true ->
        encode cfg m (posix_ns (nowUtc env)) = Ok p ->
        seal cfg p (posix_ns (nowUtc env)) = Ok str ->
        stepImpl cfg env varargin (o, l)
        = (Ok (-1, posix_ns (nowUtc env)),
           ({| TcpClient := Some c;
               LastSendTime := LastSendTime o;
               SampleCount := SampleCount o + 1;
               IsConnected := true |},
            (l ++ [write c (uint8 str) dest;
                   step_failure cfg (send_failure e)])%list)))
  /\ ((forall env' varargin' o' l',
         IsConnected (object (stepImpl cfg env' varargin' (o', l')))
         = IsConnected o'
         /\ TcpClient (object (stepImpl cfg env' varargin' (o', l')))
            = TcpClient o')
      /\ (forall env' str' o' l',
            object (sendToTelegraf cfg env' str' (o', l')) = o')
      /\ (forall o' l',
            IsConnected (object (resetImpl (o', l'))) = IsConnected o'
            /\ TcpClient (object (resetImpl (o', l'))) = TcpClient o')
      /\ (forall out o' l',
            object (releaseImpl cfg out (o', l')) = o'))
  /\ (forall env2 varargin2 m2 p2 str2 l2,
        timed o = true ->
        IsConnected o = true ->
        measure cfg varargin2 = Ok m2 ->
        due cfg (elapsed_at env2 (counted o)) (SampleCount (counted o) + 1) = true ->
        encode cfg m2 (posix_ns (nowUtc env2)) = Ok p2 ->
        seal cfg p2 (posix_ns (nowUtc env2)) = Ok str2 ->
        stepImpl cfg env2 varargin2 (counted o, l2)
        = match write_fault env2 with
          | None =>
            (Ok (1, posix_ns (nowUtc env2)),
             (set_LastSendTime (nowUtc env2) (counted (counted o)),
              (l2 ++ [write c (uint8 str2) dest; sent_note cfg str2])%list))
          | Some e2 =>
            (Ok (-1, posix_ns (nowUtc env2)),
             (counted (counted o),
              (l2 ++ [write c (uint8 str2) dest;
                      step_failure cfg (send_failure e2)])%list))
          end)
  /\ (forall env2,
        (SendInterval cfg <= elapsed_at env o)%Q ->
        clock env <= clock env2 ->
        due cfg (elapsed_at env2 (counted o)) (SampleCount (counted o) + 1) = true).
Proof.
  intros Hcl Hdest Hfault.
  split.
  { rewrite sendToTelegraf_run, Hdest, Hcl, Hfault. reflexivity. }
  split.
  { intros env2 str2 l2 Hok.
    rewrite sendToTelegraf_run, Hdest, Hcl, Hok. reflexivity. }
  split.
  { intros varargin m p Hz Hcon Hm Hdue Hp Hstr.
    rewrite (step_sends cfg env varargin o l m p str c dest
               Hz Hm Hdue Hcon Hp Hstr Hdest Hcl), Hfault.
    unfold counted, set_SampleCount. rewrite Hcl, Hcon. reflexivity. }
  split.
  { split.
    { intros env' varargin' o' l'.
      destruct (stepImpl_object cfg env' varargin' o' l') as (Hc & Hi & _).
      auto. }
    split.
    { intros env' str' o' l'. rewrite sendToTelegraf_run.
      destruct (destination cfg); [ | reflexivity ].
      destruct (TcpClient o'); [ | reflexivity ].
      destruct (write_fault env'); reflexivity. }
    split.
    { intros o' l'. split; reflexivity. }
    intros out o' l'. rewrite releaseImpl_run. reflexivity. }
  split.
  { intros env2 varargin2 m2 p2 str2 l2 Hz Hcon Hm2 Hdue2 Hp2 Hstr2.
    apply (step_sends cfg env2 varargin2 (counted o) l2 m2 p2 str2 c dest
             Hz Hm2 Hdue2 Hcon Hp2 Hstr2 Hdest Hcl). }
  intros env2 Hle Hnow. apply due_iff. left.
  unfold elapsed_at, seconds in *. cbn [LastSendTime counted set_SampleCount].
  eapply Qle_trans; [ exact Hle | ].
  apply Qmult_le_compat_r; [ | discriminate ].
  rewrite <- Zle_Qle. lia.
Qed.

End AfterSendError.

(** ** The tick and the transport *)

Section Traffic.

Context `{Platform}.
Variable cfg : Nontunable.

(** X7. A tick only adds to the log, and what it adds holds at most one
    transport write.  A write is made only by a connected block with a
    handle, under a protocol that has a destination, on a due tick.  A
    tick that returns 0 and a tick that raises have written nothing; a
    tick returns 1 only when it was due on a connected block, and then,
    under 'tcp' and 'udp', it has written. *)
Theorem tick_writes_at_most_once env varargin o l :
  exists evs,
    logged (stepImpl cfg env varargin (o, l)) = (l ++ evs)%list
    /\ (List.length (filter is_write evs) <= 1)%nat
    /\ (forall c data dest,
          In (write c data dest) evs ->
          IsConnected o = true /\ TcpClient o = Some c
          /\ destination cfg = Some dest
          /\ due cfg (elapsed_at env o) (SampleCount o + 1) = true)
    /\ (forall ts, returned (stepImpl cfg env varargin (o, l)) = Ok (0, ts) ->
        existsb is_write evs = false)
    /\ (forall ts, returned (stepImpl cfg env varargin (o, l)) = Ok (1, ts) ->
        due cfg (elapsed_at env o) (SampleCount o + 1) = true
        /\ IsConnected o = true
        /\ (destination cfg <> None -> existsb is_write evs = true))
    /\ (forall e, returned (stepImpl cfg env varargin (o, l)) = Raise e ->
        evs = []).
Proof.
  pose (quiet_case := fun (evs : list event) =>
          existsb is_write evs = false ->
          (List.length (filter is_write evs) <= 1)%nat
          /\ (forall c data dest, In (write c data dest) evs -> False)).
  assert (Hquiet : forall evs, quiet_case evs).
  { intros evs Hnone. split.
    - induction evs as [ | ev evs IH ]; [ cbn; lia | ].
      cbn in Hnone |- *. apply orb_false_iff in Hnone as [Hev Hrest].
      rewrite Hev. auto.
    - intros c data dest Hin.
      assert (Hex : existsb is_write evs = true)
        by (apply existsb_exists; exists (write c data dest); auto).
      congruence. }
  assert (Hsilent : forall (r : result (Z * Z)) (evs : list event),
             existsb is_write evs = false ->
             (forall ts, r = Ok (1, ts) -> False) ->
             (forall e, r = Raise e -> False) ->
             (List.length (filter is_write evs) <= 1)%nat
             /\ (forall c data dest,
                   In (write c data dest) evs ->
                   IsConnected o = true /\ TcpClient o = Some c
                   /\ destination cfg = Some dest
                   /\ due cfg (elapsed_at env o) (SampleCount o + 1) = true)
             /\ (forall ts, r = Ok (0, ts) ->
                 existsb is_write evs = false)
             /\ (forall ts, r = Ok (1, ts) ->
                 due cfg (elapsed_at env o) (SampleCount o + 1) = true
                 /\ IsConnected o = true
                 /\ (destination cfg <> None -> existsb is_write evs = true))
             /\ (forall e, r = Raise e -> evs = [])).
  { intros r evs Hnone H1 He.
    destruct (Hquiet evs Hnone) as [Hlen Hin].
    split; [ exact Hlen | ].
    split; [ intros c data dest Hw; destruct (Hin c data dest Hw) | ].
    split; [ intros; exact Hnone | ].
    split; [ intros ts Hr; destruct (H1 ts Hr) | ].
    intros e Hr; destruct (He e Hr). }
  rewrite stepImpl_run. unfold returned, logged.
  destruct (timed o) eqn:Hz.
  2:{ exists []. cbn [fst snd]. rewrite app_nil_r. split; [ reflexivity | ].
      split; [ cbn; lia | ]. split; [ intros ? ? ? [] | ].
      split; [ reflexivity | ]. split; [ discriminate | reflexivity ]. }
  rewrite tick_run.
  destruct (measure cfg varargin) as [m | e] eqn:Hm.
  2:{ eexists. split; [ reflexivity | ].
      apply Hsilent; [ reflexivity | discriminate | discriminate ]. }
  destruct (due cfg (elapsed_at env o) (SampleCount o + 1)) eqn:Hdue.
  2:{ generalize (tick_not_due cfg env varargin o l m Hm Hdue).
      rewrite tick_run, Hm. intros ->.
      exists []. cbn [fst snd]. rewrite app_nil_r. split; [ reflexivity | ].
      apply Hsilent; [ reflexivity | discriminate | discriminate ]. }
  destruct (IsConnected o) eqn:Hcon.
  2:{ generalize (tick_not_connected cfg env varargin o l m Hm Hdue Hcon).
      rewrite tick_run, Hm. intros ->.
      eexists. cbn [fst snd]. split; [ reflexivity | ].
      apply Hsilent; [ reflexivity | discriminate | discriminate ]. }
  generalize (tick_sending cfg env varargin o l m Hm Hdue Hcon).
  rewrite tick_run, Hm. intros ->.
  destruct (encode cfg m _) as [p | e].
  2:{ eexists. split; [ reflexivity | ].
      apply Hsilent; [ reflexivity | discriminate | discriminate ]. }
  destruct (seal cfg p _) as [str | e].
  2:{ eexists. split; [ reflexivity | ].
      apply Hsilent; [ reflexivity | discriminate | discriminate ]. }
  destruct (destination cfg) as [dest | ].
  2:{ eexists. cbn [fst snd]. split; [ reflexivity | ].
      split; [ cbn; lia | ]. split; [ intros c data dest [[=] | []] | ].
      split; [ discriminate | ].
      split; [ intros ts _; repeat split; congruence | discriminate ]. }
  destruct (TcpClient o) as [c | ].
  2:{ eexists. split; [ reflexivity | ].
      apply Hsilent; [ reflexivity | discriminate | discriminate ]. }
  destruct (write_fault env) as [e | ].
  - exists [write c (uint8 str) dest; step_failure cfg (send_failure e)].
    cbn [fst snd]. rewrite <- app_assoc. split; [ reflexivity | ].
    split; [ cbn; lia | ].
    split.
    { intros c' data dest' [[= <- <- <-] | [[=] | []]]. auto. }
    split; [ discriminate | ]. split; discriminate.
  - exists [write c (uint8 str) dest; sent_note cfg str].
    cbn [fst snd]. split; [ reflexivity | ].
    split; [ cbn; lia | ].
    split.
    { intros c' data dest' [[= <- <- <-] | [[=] | []]]. auto. }
    split; [ discriminate | ].
    split; [ intros ts _; repeat split; reflexivity | discriminate ].
Qed.

Lemma timed_counted o : timed (counted o) = timed o.
Proof. reflexivity. Qed.

(** X8. A block that is not connected stays so over any run of ticks,
    once line 77 returns: every tick returns 0 or -1, never 1, nothing is
    written to the transport, and [LastSendTime] and the handle are at the
    end what they were. *)
Theorem disconnected_block_never_sends ticks :
  forall o l,
  timed o = true ->
  IsConnected o = false ->
  exists ys o' evs,
    steps cfg ticks (o, l) = (Ok ys, (o', (l ++ evs)%list))
    /\ List.length ys = List.length ticks
    /\ Forall (fun y => fst y = 0 \/ fst y = -1) ys
    /\ existsb is_write evs = false
    /\ LastSendTime o' = LastSendTime o
    /\ TcpClient o' = TcpClient o
    /\ IsConnected o' = false.
Proof.
  induction ticks as [ | [env varargin] rest IH ]; intros o l Hz Hcon.
  - exists [], o, []. cbn. rewrite app_nil_r. repeat split; auto.
  - rewrite steps_cons.
    assert (Hstep : exists s evs,
               stepImpl cfg env varargin (o, l)
               = (Ok (s, posix_ns (nowUtc env)), (counted o, (l ++ evs)%list))
               /\ (s = 0 \/ s = -1)
               /\ existsb is_write evs = false).
    { rewrite (stepImpl_timed cfg env varargin o l Hz).
      destruct (measure cfg varargin) as [m | e] eqn:Hm.
      - destruct (due cfg (elapsed_at env o) (SampleCount o + 1)) eqn:Hdue.
        + rewrite (tick_not_connected cfg env varargin o l m Hm Hdue Hcon).
          exists 0, [not_connected_note]. auto.
        + rewrite (tick_not_due cfg env varargin o l m Hm Hdue).
          exists 0, []. rewrite app_nil_r. auto.
      - rewrite (tick_invalid cfg env _ varargin _ e Hm).
        exists (-1), [step_failure cfg e]. auto. }
    destruct Hstep as (s & evs & -> & Hs & Hw).
    destruct (IH (counted o) (l ++ evs)%list Hz Hcon)
      as (ys & o' & evs' & -> & Hlen & Hall & Hw' & Ht & Hc & Hi).
    exists ((s, posix_ns (nowUtc env)) :: ys), o', (evs ++ evs')%list.
    rewrite app_assoc. split; [ reflexivity | ].
    split; [ cbn; lia | ].
    split; [ constructor; [ exact Hs | exact Hall ] | ].
    split; [ rewrite existsb_app, Hw, Hw'; reflexivity | ].
    auto.
Qed.

(** [struct] refuses as soon as one name is not a field name. *)
Lemma struct_refuses fields :
  existsb (fun f => negb (isvarname (fst f))) fields = true ->
  exists e, struct fields = Raise e.
Proof.
  unfold struct. intros Hbad.
  destruct (find _ fields) as [f | ] eqn:Hfind; [ eauto | ].
  apply existsb_exists in Hbad as (f & Hin & Hf).
  rewrite (find_none _ _ Hfind f Hin) in Hf. discriminate.
Qed.

Lemma struct_accepts fields :
  forallb isvarname (map fst fields) = true ->
  struct fields = Ok (MStruct fields).
Proof.
  unfold struct. intros Hok.
  destruct (find _ fields) as [f | ] eqn:Hfind; [ | reflexivity ].
  apply find_some in Hfind as [Hin Hf].
  rewrite forallb_forall in Hok.
  rewrite (Hok (fst f)) in Hf; [ discriminate | ].
  apply in_map. exact Hin.
Qed.

(** X9. On a platform whose [struct] refuses one of the OBIS-like names
    of lines 248-254 as a field name, as MATLAB does, the DLMS format never
    yields a payload: [buildDLMSPayload] raises for every measurement.  So
    no tick, in whatever state of the block, writes to the transport or
    returns 1; and a due tick of a connected block on accepted inputs,
    once line 77 has returned, ends with status -1 and leaves
    [LastSendTime] alone. *)
Theorem dlms_names_are_refused :
  existsb (fun name => negb (isvarname name)) obis_names = true ->
  strcmpi (CommunicationFormat cfg) "influx" = false ->
  (forall m ts, exists e, encode cfg m ts = Raise e)
  /\ (forall env varargin o l,
        exists evs,
          logged (stepImpl cfg env varargin (o, l)) = (l ++ evs)%list
          /\ existsb is_write evs = false
          /\ forall ts,
               returned (stepImpl cfg env varargin (o, l)) <> Ok (1, ts))
  /\ (forall env varargin o l m,
        timed o = true ->
        measure cfg varargin = Ok m ->
        due cfg (elapsed_at env o) (SampleCount o + 1) = true ->
        IsConnected o = true ->
        exists e,
          stepImpl cfg env varargin (o, l)
          = (Ok (-1, posix_ns (nowUtc env)),
             (counted o, (l ++ [step_failure cfg e])%list))).
Proof.
  intros Hbad Hfmt.
  assert (Henc : forall m ts, exists e, encode cfg m ts = Raise e).
  { intros m ts. unfold encode, buildDLMSPayload. rewrite Hfmt.
    destruct (struct_refuses
                [("1-0:1.8.0", energyKwh m); ("1-0:2.8.0", MNaN);
                 ("1-0:16.7.0", pActive m); ("1-0:3.7.0", pReactive m);
                 ("1-0:32.7.0", voltage m); ("1-0:31.7.0", current m);
                 ("1-0:14.7.0", frequency m)] Hbad) as [e ->].
    eauto. }
  split; [ exact Henc | ].
  split.
  { intros env varargin o l.
    destruct (stepImpl_writes cfg env varargin o l) as (evs & Hlog & Hw).
    exists evs. split; [ exact Hlog | ]. split.
    - destruct (existsb is_write evs) eqn:Hex; [ exfalso | reflexivity ].
      apply existsb_exists in Hex as ([ | | | c data dest ] & Hin & Hev);
        try discriminate Hev.
      destruct (Hw c data dest Hin) as (m & p & str & _ & Hp & _).
      destruct (Henc m (posix_ns (nowUtc env))) as [e He]. congruence.
    - intros ts Hsent.
      destruct (stepImpl_sent cfg env varargin o l ts Hsent)
        as (m & p & str & _ & _ & _ & _ & Hp & _).
      destruct (Henc m (posix_ns (nowUtc env))) as [e He]. congruence. }
  intros env varargin o l m Hz Hm Hdue Hcon.
  destruct (Henc m (posix_ns (nowUtc env))) as [e He].
  exists e.
  rewrite (stepImpl_timed cfg env varargin o l Hz).
  rewrite (tick_sending cfg env varargin o l m Hm Hdue Hcon), He.
  reflexivity.
Qed.

Lemma measured_meta varargin m :
  measure cfg varargin = Ok m -> isempty (meta m) = false.
Proof.
  unfold measure.
  destruct (UseWaveformInput cfg).
  - destruct (index varargin 1); [ | discriminate ].
    destruct (index varargin 2); [ | discriminate ].
    destruct (analyze cfg _ _); [ | discriminate ].
    intros [= <-]. reflexivity.
  - destruct varargin as [ | a1 [ | a2 [ | a3 [ | a4 [ | a5 [ | a6 [ | a7
      [ | a8 [ | a9 rest ] ] ] ] ] ] ] ] ]; try discriminate.
    intros [= <-]. reflexivity.
Qed.

(** X10. On a platform whose [struct] accepts the names, the DLMS payload
    of a tick has, in order, the meter id, the node type, the timestamp,
    the seven measurements under their OBIS-like names, the reactive
    energy always NaN, the three aggregates, and the meta struct.  The
    guard of line 261 never leaves the meta struct out: the struct is not
    empty in waveform mode, and in the other mode [struct()] is one struct
    without fields, which is not empty either. *)
Theorem dlms_payload_shape varargin m ts :
  forallb isvarname (obis_names ++ ["max_demand_kw"; "cost"; "time_of_use"])
  = true ->
  strcmpi (CommunicationFormat cfg) "influx" = false ->
  measure cfg varargin = Ok m ->
  encode cfg m ts
  = Ok (jsonencode
          (MStruct
             [("meter_id", MChar (MeterId cfg));
              ("node_type", MChar (NodeType cfg));
              ("timestamp_ns", MInt64 ts);
              ("measurements",
               MStruct [("1-0:1.8.0", energyKwh m);
                        ("1-0:2.8.0", MNaN);
                        ("1-0:16.7.0", pActive m);
                        ("1-0:3.7.0", pReactive m);
                        ("1-0:32.7.0", voltage m);
                        ("1-0:31.7.0", current m);
                        ("1-0:14.7.0", frequency m)]);
              ("aggregates",
               MStruct [("max_demand_kw", maxDemandKw m);
                        ("cost", costValue m);
                        ("time_of_use", timeOfUse m)]);
              ("meta", meta m)])).
Proof.
  intros Hok Hfmt Hm.
  rewrite forallb_app in Hok. apply andb_true_iff in Hok as [Hobis Hagg].
  unfold encode, buildDLMSPayload. rewrite Hfmt.
  rewrite !struct_accepts by assumption.
  rewrite (measured_meta varargin m Hm). reflexivity.
Qed.

(** X11. The block declares nine inputs and names nine.  In waveform mode
    [stepImpl] reads the first two and ignores the others, and with fewer
    than two it fails on the index, not on the check of line 87.  In the
    other mode it returns a measurement exactly when it is given at least
    the declared number of inputs, fails with the message of line 156
    otherwise, takes the first nine in the order of the names, and hands
    an empty meta struct on. *)
Theorem inputs_used :
  Z.of_nat (List.length getInputNamesImpl) = getNumInputsImpl
  /\ (UseWaveformInput cfg = true ->
      (forall v i rest, measure cfg (v :: i :: rest) = measure cfg [v; i])
      /\ (forall varargin,
            (List.length varargin < 2)%nat ->
            exists e, measure cfg varargin = Raise e /\ e <> InvalidWindow))
  /\ (UseWaveformInput cfg = false ->
      (forall varargin,
         (exists m, measure cfg varargin = Ok m)
         <-> getNumInputsImpl <= Z.of_nat (List.length varargin))
      /\ (forall varargin,
            Z.of_nat (List.length varargin) < getNumInputsImpl ->
            measure cfg varargin
            = Raise (ME "Expected 9 inputs when UseWaveformInput is false."))
      /\ (forall varargin m,
            measure cfg varargin = Ok m ->
            quantities m = map MReal (firstn 9 varargin)
            /\ meta m = MStruct [])).
Proof.
  split; [ reflexivity | ].
  split.
  - intros Hmode. unfold measure. rewrite Hmode. split.
    + intros v i rest. reflexivity.
    + intros [ | v [ | i rest ] ] Hlen; cbn in Hlen; try lia;
        eexists; (split; [ reflexivity | discriminate ]).
  - intros Hmode. unfold measure, getNumInputsImpl. rewrite Hmode.
    split; [ | split ].
    + intros varargin.
      destruct varargin as [ | a1 [ | a2 [ | a3 [ | a4 [ | a5 [ | a6 [ | a7
        [ | a8 [ | a9 rest ] ] ] ] ] ] ] ] ]; cbn [List.length];
        (split; [ intros [m Hm]; first [ discriminate Hm | lia ]
                | intros Hlen; first [ lia | eauto ] ]).
    + intros varargin.
      destruct varargin as [ | a1 [ | a2 [ | a3 [ | a4 [ | a5 [ | a6 [ | a7
        [ | a8 [ | a9 rest ] ] ] ] ] ] ] ] ]; cbn [List.length];
        intros Hlen; first [ reflexivity | lia ].
    + intros varargin m.
      destruct varargin as [ | a1 [ | a2 [ | a3 [ | a4 [ | a5 [ | a6 [ | a7
        [ | a8 [ | a9 rest ] ] ] ] ] ] ] ] ]; try discriminate.
      intros [= <-]. split; reflexivity.
Qed.

End Traffic.

(** ** The spacing of the sends *)

Section Spacing.

Context `{Platform}.
Variable cfg : Nontunable.

(** A tick that returns 1 was due, and moved [LastSendTime] to its clock. *)
Lemma sent_was_due env varargin o l ts :
  timed o = true ->
  returned (stepImpl cfg env varargin (o, l)) = Ok (1, ts) ->
  due cfg (elapsed_at env o) (SampleCount o + 1) = true
  /\ object (stepImpl cfg env varargin (o, l))
     = set_LastSendTime (nowUtc env) (counted o).
Proof.
  intros Hz Hret. split.
  - destruct (due cfg (elapsed_at env o) (SampleCount o + 1)) eqn:Hdue;
      [ reflexivity | exfalso ].
    rewrite (step_not_due cfg env varargin o l Hz Hdue) in Hret.
    destruct (measure cfg varargin); discriminate Hret.
  - destruct (step_shape cfg env varargin o l Hz) as (s & evs & Hrun & _).
    rewrite Hrun in *. unfold returned, object in *; cbn [fst snd] in *.
    injection Hret as -> _. reflexivity.
Qed.

(** Ticks that do not return 1 leave [LastSendTime] where it was. *)
Lemma steps_without_send ticks :
  forall o l ys w,
  timed o = true ->
  steps cfg ticks (o, l) = (Ok ys, w) ->
  Forall (fun y => fst y <> 1) ys ->
  LastSendTime (fst w) = LastSendTime o
  /\ SampleCount (fst w) = SampleCount o + Z.of_nat (List.length ticks)
  /\ timed (fst w) = true.
Proof.
  induction ticks as [ | [env varargin] rest IH ]; intros o l ys w Hz Hrun Hys.
  - injection Hrun as _ <-. cbn. rewrite Z.add_0_r. auto.
  - rewrite steps_cons in Hrun.
    destruct (step_shape cfg env varargin o l Hz) as (s & evs & Hstep & _).
    rewrite Hstep in Hrun.
    destruct (steps cfg rest _) as [[ys' | e] w'] eqn:Hrest; [ | discriminate ].
    injection Hrun as <- <-.
    inversion Hys as [ | y ys0 Hs Hys' ]; subst. cbn [fst] in Hs.
    destruct (s =? 1) eqn:Hone; [ apply Z.eqb_eq in Hone; contradiction | ].
    destruct (IH (counted o) _ ys' w' Hz Hrest Hys') as (Ht & Hc & Hz').
    rewrite Ht, Hc. cbn [counted set_SampleCount SampleCount LastSendTime List.length].
    repeat split; [ lia | exact Hz' ].
Qed.

(** X22. Sends are spaced.  If a tick has sent and, after any number of
    ticks that did not send, another tick sends, then the send interval has
    elapsed between the clocks of the two, and [LastSendTime] is then the
    clock of the second. *)
Theorem sends_are_spaced env1 varargin1 o l ts1 ticks ys w env2 varargin2 ts2 :
  timed o = true ->
  0 <= SampleCount o ->
  returned (stepImpl cfg env1 varargin1 (o, l)) = Ok (1, ts1) ->
  steps cfg ticks (snd (stepImpl cfg env1 varargin1 (o, l))) = (Ok ys, w) ->
  Forall (fun y => fst y <> 1) ys ->
  returned (stepImpl cfg env2 varargin2 w) = Ok (1, ts2) ->
  (SendInterval cfg <= seconds (clock env2 - clock env1))%Q
  /\ LastSendTime (object (stepImpl cfg env2 varargin2 w)) = utc (clock env2).
Proof.
  intros Hz Hcount Hsent Hrun Hquiet Hnext.
  destruct (sent_was_due env1 varargin1 o l ts1 Hz Hsent) as [_ Hobj].
  destruct (stepImpl cfg env1 varargin1 (o, l)) as [r1 [o1 l1]].
  unfold object in Hobj; cbn [fst snd] in *. subst o1.
  destruct (steps_without_send ticks (set_LastSendTime (nowUtc env1) (counted o))
              l1 ys w eq_refl Hrun Hquiet)
    as (Ht & Hc & Hz').
  destruct w as [o2 l2]. cbn [fst] in *.
  destruct (sent_was_due env2 varargin2 o2 l2 ts2 Hz' Hnext) as [Hdue Hobj2].
  split.
  - apply due_iff in Hdue as [Hle | Hfirst].
    + unfold elapsed_at in Hle. rewrite Ht in Hle. exact Hle.
    + rewrite Hc in Hfirst.
      cbn [counted set_SampleCount set_LastSendTime SampleCount] in Hfirst. lia.
  - rewrite Hobj2. reflexivity.
Qed.

End Spacing.

(** ** The message *)

Section Message.

Context `{Platform}.

Lemma lower_length s : String.length (lower s) = String.length s.
Proof. induction s as [ | c s IH ]; cbn; [ | rewrite IH ]; reflexivity. Qed.

Lemma string_of_list_ascii_length l :
  String.length (string_of_list_ascii l) = List.length l.
Proof. induction l as [ | c l IH ]; cbn; [ | rewrite IH ]; reflexivity. Qed.

Lemma rows_length w out :
  w = 1%nat \/ w = 2%nat ->
  List.length (List.concat (map (dec2hex_row w) out)) = (w * List.length out)%nat.
Proof.
  intros Hw. induction out as [ | b out IH ]; [ cbn; lia | ].
  cbn [map List.concat List.length]. rewrite length_app, IH.
  destruct Hw as [-> | ->]; cbn [dec2hex_row List.length]; lia.
Qed.

Lemma hex_length out :
  String.length (hex out) = (dec2hex_width out * List.length out)%nat.
Proof.
  unfold hex, dec2hex.
  rewrite lower_length, string_of_list_ascii_length.
  apply rows_length. unfold dec2hex_width.
  destruct (existsb _ out); auto.
Qed.

(** X12. [hmacSha256Hex] raises exactly when the JVM's Mac does, on the
    bytes of the key and of the data.  Its result is two characters per
    byte of the MAC when one byte at least is 16 or more, and one
    character per byte when every byte is below 16, since [dec2hex] pads
    to the widest element only. *)
Theorem signature_length dataStr keyStr :
  (forall e,
     hmacSha256Hex dataStr keyStr = Raise e
     <-> HmacSHA256 (uint8 keyStr) (uint8 dataStr) = Raise e)
  /\ (forall sig,
        hmacSha256Hex dataStr keyStr = Ok sig ->
        exists mac,
          HmacSHA256 (uint8 keyStr) (uint8 dataStr) = Ok mac
          /\ sig = hex mac
          /\ (existsb (fun b => (16 <=? Byte.to_N b)%N) mac = true ->
              String.length sig = (2 * List.length mac)%nat)
          /\ (existsb (fun b => (16 <=? Byte.to_N b)%N) mac = false ->
              String.length sig = List.length mac)).
Proof.
  unfold hmacSha256Hex.
  destruct (HmacSHA256 (uint8 keyStr) (uint8 dataStr)) as [mac | e0].
  - split; [ intros e; split; discriminate | ].
    intros sig [= <-]. exists mac.
    split; [ reflexivity | ]. split; [ reflexivity | ].
    rewrite hex_length. unfold dec2hex_width.
    split; intros ->; lia.
  - split; [ intros e; split; intros [= ->]; reflexivity | discriminate ].
Qed.

(** X13. The Influx message carries nothing of the meter: two blocks of
    different configuration, given measurements that agree on the eight
    formatted quantities, build the same payload, whatever the time of use
    and the meta struct; and without a key that payload is what they hand
    to the transport. *)
Theorem influx_message_is_anonymous cfg1 cfg2 m1 m2 ts :
  strcmpi (CommunicationFormat cfg1) "influx" = true ->
  strcmpi (CommunicationFormat cfg2) "influx" = true ->
  influx_fields m1 = influx_fields m2 ->
  exists payload,
    encode cfg1 m1 ts = Ok payload
    /\ encode cfg2 m2 ts = Ok payload
    /\ (HMACKey cfg1 = "" -> seal cfg1 payload ts = Ok payload)
    /\ (HMACKey cfg2 = "" -> seal cfg2 payload ts = Ok payload).
Proof.
  intros Hf1 Hf2 Hm. unfold encode. rewrite Hf1, Hf2.
  injection Hm as -> -> -> -> -> -> -> ->.
  eexists. split; [ reflexivity | ]. split; [ reflexivity | ].
  split; intros Hkey; rewrite seal_run, Hkey; reflexivity.
Qed.

End Message.

(** ** The measured quantities *)

Section Quantities.

Variable cfg : Nontunable.

Local Open Scope R_scope.

(** *** Sums of squares *)

Lemma sum_sq_nonneg xs : 0 <= sum (sq xs).
Proof.
  induction xs as [ | x xs IH ]; [ cbn; lra | ].
  change (0 <= x * x + sum (sq xs)).
  pose proof (Rle_0_sqr x) as Hx. unfold Rsqr in Hx. lra.
Qed.

Lemma sq_length xs : List.length (sq xs) = List.length xs.
Proof. apply length_map. Qed.

Lemma times_comm xs : forall ys, times xs ys = times ys xs.
Proof.
  induction xs as [ | x xs IH ]; intros [ | y ys ]; cbn; try reflexivity.
  rewrite IH, Rmult_comm. reflexivity.
Qed.

(** *** The window *)

Lemma hann_bounds N : Forall (fun w => 0 <= w <= 1) (hann N).
Proof.
  destruct N as [ | [ | N ] ].
  - constructor.
  - repeat constructor; lra.
  - unfold hann. apply Forall_forall. intros w Hin.
    apply in_map_iff in Hin as (n & <- & _).
    pose proof (COS_bound (2 * PI * INR n / INR (Datatypes.S (Datatypes.S N) - 1))). lra.
Qed.

Lemma sum_sq_times xs :
  forall ws, Forall (fun w => 0 <= w <= 1) ws ->
             sum (sq (times xs ws)) <= sum (sq xs).
Proof.
  induction xs as [ | x xs IH ]; intros ws Hws; [ destruct ws; cbn; lra | ].
  destruct ws as [ | w ws ].
  - cbn [times]. apply (sum_sq_nonneg (x :: xs)).
  - inversion Hws as [ | ? ? Hw Hrest ]; subst.
    specialize (IH ws Hrest).
    change (x * w * (x * w) + sum (sq (times xs ws)) <= x * x + sum (sq xs)).
    assert (x * w * (x * w) <= x * x).
    { replace (x * w * (x * w)) with (x * x * (w * w)) by ring.
      pose proof (Rle_0_sqr x) as Hx. unfold Rsqr in Hx.
      assert (w * w <= 1) by nra.
      rewrite <- (Rmult_1_r (x * x)) at 2.
      apply Rmult_le_compat_l; assumption. }
    lra.
Qed.

(** *** The analysis, read backwards *)

Lemma validate_ok v i :
  validate v i = Ok tt ->
  v <> [] /\ i <> [] /\ List.length v = List.length i.
Proof.
  unfold validate.
  destruct v as [ | v0 v ], i as [ | i0 i ]; cbn [orb]; try discriminate.
  destruct (List.length (v0 :: v) =? List.length (i0 :: i))%nat eqn:Hlen;
    cbn [negb]; [ | discriminate ].
  apply Nat.eqb_eq in Hlen. intros _. repeat split; congruence.
Qed.

Lemma validate_valid v i :
  v <> [] -> List.length v = List.length i -> validate v i = Ok tt.
Proof.
  intros Hv Hlen. unfold validate.
  destruct v as [ | v0 v ]; [ congruence | ].
  destruct i as [ | i0 i ]; [ discriminate Hlen | ].
  rewrite Hlen, Nat.eqb_refl. reflexivity.
Qed.

Lemma analyze_reading v i :
  v <> [] -> List.length v = List.length i ->
  analyze cfg v i =
  match bin (fft (windowed v)) (kFund cfg (List.length v)) with
  | Raise e => Raise e
  | Ok Vf =>
    match bin (fft (windowed i)) (kFund cfg (List.length v)) with
    | Raise e => Raise e
    | Ok If => Ok (reading cfg v i Vf If)
    end
  end.
Proof.
  intros Hv Hlen. unfold analyze. rewrite (validate_valid v i Hv Hlen).
  cbv zeta. unfold reading, windowed. rewrite <- Hlen. reflexivity.
Qed.

Lemma analyze_shape v i a :
  analyze cfg v i = Ok a ->
  v <> [] /\ List.length v = List.length i
  /\ exists Vf If,
       bin (fft (windowed v)) (kFund cfg (List.length v)) = Ok Vf
       /\ bin (fft (windowed i)) (kFund cfg (List.length v)) = Ok If
       /\ a = reading cfg v i Vf If.
Proof.
  intros Ha.
  assert (Hval : validate v i = Ok tt).
  { unfold analyze in Ha. destruct (validate v i) as [ [] | e ];
      [ reflexivity | discriminate ]. }
  destruct (validate_ok v i Hval) as (Hv & _ & Hlen).
  split; [ exact Hv | ]. split; [ exact Hlen | ].
  rewrite (analyze_reading v i Hv Hlen) in Ha.
  destruct (bin (fft (windowed v)) _) as [Vf | ]; [ | discriminate ].
  destruct (bin (fft (windowed i)) _) as [If | ]; [ | discriminate ].
  exists Vf, If. injection Ha as <-. auto.
Qed.

Lemma samples_pos (v : list R) : v <> [] -> 0 < INR (List.length v).
Proof.
  intros Hv. apply lt_0_INR. destruct v; [ congruence | cbn; lia ].
Qed.

Lemma sqrt2_pos : 0 < sqrt 2.
Proof. apply sqrt_lt_R0. lra. Qed.

(** X15. The window lowers the RMS values.  Each RMS value of an analysis
    of finite samples is not negative and, being taken after the Hann
    window, whose weights lie between 0 and 1, is at most the root mean
    square of the samples as they came. *)
Theorem window_lowers_rms v i a :
  analyze cfg v i = Ok a ->
  0 <= Vrms a /\ 0 <= Irms a
  /\ Vrms a <= rms v
  /\ Irms a <= rms i.
Proof.
  intros Ha.
  destruct (analyze_shape v i a Ha) as (Hv & Hlen & Vf & If & _ & _ & ->).
  pose proof (samples_pos v Hv) as Hn.
  cbn [reading Vrms Irms]. unfold rms, mean.
  assert (Hlv : List.length (windowed v) = List.length v)
    by apply windowed_length.
  assert (Hli : List.length (windowed i) = List.length v)
    by (unfold windowed; rewrite windowed_length; congruence).
  rewrite !sq_length, Hlv, Hli, <- Hlen.
  set (n := INR (List.length v)) in *.
  assert (Hk : 0 < / n) by (apply Rinv_0_lt_compat; exact Hn).
  split; [ apply sqrt_pos | ].
  split; [ apply sqrt_pos | ].
  split.
  - apply sqrt_le_1_alt. apply Rmult_le_compat_r; [ lra | ].
    apply sum_sq_times, hann_bounds.
  - apply sqrt_le_1_alt. apply Rmult_le_compat_r; [ lra | ].
    apply sum_sq_times, hann_bounds.
Qed.

(** X16. Exchanging voltage and current exchanges the two RMS values,
    keeps the active powers and the apparent powers, and changes the sign
    of the reactive power. *)
Theorem exchanging_the_inputs v i a :
  analyze cfg v i = Ok a ->
  exists b,
    analyze cfg i v = Ok b
    /\ Vrms b = Irms a /\ Irms b = Vrms a
    /\ P_inst b = P_inst a
    /\ P_fund b = P_fund a
    /\ Q_fund b = - Q_fund a
    /\ S b = S a
    /\ S_fund b = S_fund a.
Proof.
  intros Ha.
  destruct (analyze_shape v i a Ha) as (Hv & Hlen & Vf & If & HV & HI & ->).
  assert (Hi : i <> []) by (destruct i, v; cbn in Hlen; congruence).
  rewrite (analyze_reading i v Hi (eq_sym Hlen)), <- Hlen, HI, HV.
  exists (reading cfg i v If Vf). split; [ reflexivity | ].
  cbn [reading Vrms Irms P_inst P_fund Q_fund S S_fund]. rewrite <- Hlen.
  split; [ reflexivity | ]. split; [ reflexivity | ].
  split; [ rewrite times_comm; reflexivity | ].
  cbn [Cmul conj real imag]. unfold Rdiv.
  repeat split; ring.
Qed.

(** *** Short windows *)

Lemma hann_2 : hann 2 = [0; 0].
Proof.
  unfold hann. cbn [seq map Nat.sub INR].
  replace (2 * PI * 0 / 1) with 0 by field.
  replace (2 * PI * 1 / 1) with (2 * PI) by field.
  rewrite cos_0, cos_2PI.
  repeat (apply (f_equal2 (@cons R)); [ lra | ]). reflexivity.
Qed.

Lemma windowed_2 x0 x1 : windowed [x0; x1] = [0; 0].
Proof.
  unfold windowed. cbn [List.length]. rewrite hann_2. cbn [times].
  rewrite !Rmult_0_r. reflexivity.
Qed.

Lemma zero_bins k z : bin (fft [0; 0]) k = Ok z -> z = Cplx 0 0.
Proof.
  destruct k as [ k | ]; cbn [bin]; [ | discriminate ].
  unfold index. destruct (k <? 1)%Z; [ discriminate | ].
  assert (Hbin : forall j, dft_bin [0; 0] j = Cplx 0 0).
  { intros j. unfold dft_bin, twiddle, Cscale, Cadd.
    cbn [List.length seq combine map fold_right fst snd real imag].
    apply (f_equal2 Cplx); ring. }
  unfold fft. cbn [List.length seq map]. rewrite !Hbin.
  destruct (Z.to_nat (k - 1)) as [ | [ | n ] ]; cbn [nth_error].
  - intros [= <-]. reflexivity.
  - intros [= <-]. reflexivity.
  - destruct n; discriminate.
Qed.

(** X17. A window of two finite samples is analysed to zero whatever their
    values: the Hann window of length two is zero at both points, so
    every RMS value, power and phasor is 0. *)
Theorem two_sample_window_reads_zero v0 v1 i0 i1 a :
  analyze cfg [v0; v1] [i0; i1] = Ok a ->
  Vrms a = 0 /\ Irms a = 0 /\ P_inst a = 0
  /\ V1 a = Cplx 0 0 /\ I1 a = Cplx 0 0
  /\ Vrms_fund a = 0 /\ Irms_fund a = 0
  /\ P_fund a = 0 /\ Q_fund a = 0 /\ S a = 0.
Proof.
  intros Ha.
  destruct (analyze_shape _ _ a Ha) as (_ & _ & Vf & If & HV & HI & ->).
  rewrite windowed_2 in HV, HI.
  apply zero_bins in HV, HI. subst Vf If.
  unfold reading. rewrite !windowed_2.
  cbn [Vrms Irms P_inst V1 I1 Vrms_fund Irms_fund P_fund Q_fund S].
  assert (Hmean : mean (sq [0; 0]) = 0).
  { unfold mean, sq. cbn [map sum fold_right List.length INR]. lra. }
  assert (Habs : Cabs (Cplx 0 0) = 0).
  { unfold Cabs. cbn [real imag].
    replace (0 * 0 + 0 * 0) with 0 by ring. apply sqrt_0. }
  rewrite Hmean, sqrt_0, Habs.
  cbn [Cmul conj real imag times]. unfold mean, Rdiv.
  cbn [sum fold_right].
  repeat split; ring.
Qed.

Lemma hann_head N :
  (2 <= N)%nat -> exists ws, hann N = 0 :: ws.
Proof.
  destruct N as [ | [ | N ] ]; [ lia | lia | intros _ ].
  unfold hann. cbn [seq map INR].
  eexists. apply (f_equal2 (@cons R)); [ | reflexivity ].
  replace (2 * PI * 0 / _) with 0 by (unfold Rdiv; ring).
  rewrite cos_0. lra.
Qed.

Lemma hann_last N :
  (2 <= N)%nat ->
  exists ws, hann N = (ws ++ [0])%list /\ List.length ws = (N - 1)%nat.
Proof.
  destruct N as [ | [ | N ] ]; [ lia | lia | intros _ ].
  unfold hann. rewrite seq_S, map_app. cbn [map Nat.add Nat.sub].
  eexists. split.
  - apply (f_equal2 (@app R)); [ reflexivity | ].
    apply (f_equal2 (@cons R)); [ | reflexivity ].
    replace (2 * PI * INR (Datatypes.S N) / INR (Datatypes.S N)) with (2 * PI).
    + rewrite cos_2PI. lra.
    + field. apply not_0_INR. discriminate.
  - rewrite length_map, length_seq. reflexivity.
Qed.

Lemma times_app xs : forall ws x w,
  List.length xs = List.length ws ->
  times (xs ++ [x]) (ws ++ [w]) = (times xs ws ++ [x * w])%list.
Proof.
  induction xs as [ | x0 xs IH ]; intros [ | w0 ws ] x w Hlen;
    cbn in Hlen; try discriminate; [ reflexivity | ].
  cbn [app times]. rewrite IH by congruence. reflexivity.
Qed.

Lemma windowed_head x x' xs :
  xs <> [] -> windowed (x :: xs) = windowed (x' :: xs).
Proof.
  intros Hxs. unfold windowed. cbn [List.length].
  destruct (hann_head (Datatypes.S (List.length xs))) as [ws ->].
  { destruct xs; [ congruence | cbn; lia ]. }
  cbn [times]. rewrite !Rmult_0_r. reflexivity.
Qed.

Lemma windowed_last x x' xs :
  xs <> [] -> windowed (xs ++ [x]) = windowed (xs ++ [x'])%list.
Proof.
  intros Hxs. unfold windowed. rewrite !length_app. cbn [List.length].
  destruct (hann_last (List.length xs + 1)) as (ws & -> & Hlen).
  { destruct xs; [ congruence | cbn; lia ]. }
  rewrite !times_app by lia. rewrite !Rmult_0_r. reflexivity.
Qed.

(** X18. In a window of two finite samples or more the values of the first
    and of the last sample of the voltage and of the current have no
    bearing on the analysis: the Hann window is zero at both ends. *)
Theorem window_ends_are_ignored v i x x' y y' :
  v <> [] -> i <> [] ->
  analyze cfg (x :: v) (y :: i) = analyze cfg (x' :: v) (y' :: i)
  /\ analyze cfg (v ++ [x]) (i ++ [y]) = analyze cfg (v ++ [x']) (i ++ [y']).
Proof.
  intros Hv Hi.
  destruct (Nat.eq_dec (List.length v) (List.length i)) as [Hlen | Hlen].
  - split.
    + rewrite !analyze_reading by (cbn [List.length]; congruence).
      unfold reading.
      rewrite (windowed_head x x' v Hv), (windowed_head y y' i Hi).
      reflexivity.
    + rewrite !analyze_reading
        by (try (rewrite !length_app; cbn [List.length]; lia);
            destruct v; discriminate).
      unfold reading.
      rewrite (windowed_last x x' v Hv), (windowed_last y y' i Hi).
      rewrite !length_app. reflexivity.
  - split.
    + transitivity (@Raise Waveform InvalidWindow);
        [ | symmetry ]; apply analyze_invalid_iff; right; right;
        cbn [List.length]; congruence.
    + transitivity (@Raise Waveform InvalidWindow);
        [ | symmetry ]; apply analyze_invalid_iff; right; right;
        rewrite !length_app; cbn [List.length]; lia.
Qed.

Lemma fundamental_bin_1 : (0 <= cycles cfg 1)%Z -> fundamental_bin cfg 1 = 1%Z.
Proof.
  intros Hc. unfold fundamental_bin.
  destruct (Z.of_nat 1 <? cycles cfg 1 + 1)%Z eqn:Hwrap.
  - change (Z.of_nat 1) with 1%Z. rewrite Z.mod_1_r. reflexivity.
  - apply Z.ltb_ge in Hwrap. lia.
Qed.

Lemma windowed_1 x : windowed [x] = [x].
Proof. unfold windowed. cbn. rewrite Rmult_1_r. reflexivity. Qed.

Lemma dft_1 x : dft_bin [x] 0 = Cplx x 0.
Proof.
  unfold dft_bin, twiddle, Cscale, Cadd.
  cbn [List.length seq combine map fold_right fst snd real imag INR].
  replace (2 * PI * 0 * 0 / 1) with 0 by field.
  rewrite cos_0, sin_0. apply (f_equal2 Cplx); ring.
Qed.

(** X19. A window of one sample, for a positive sampling rate and a
    non-negative nominal frequency: the bin read is the first, the two
    phasors are the samples themselves, the RMS values are the magnitudes
    of the two samples, the active power, total and fundamental, is their
    product, and the reactive power is 0. *)
Theorem one_sample_window v i :
  (0 < SamplingRate cfg)%Q ->
  (0 <= FundamentalFreq cfg)%Q ->
  exists a,
    analyze cfg [v] [i] = Ok a
    /\ wkFund a = Some 1%Z
    /\ Vrms a = Rabs v /\ Irms a = Rabs i
    /\ P_inst a = v * i
    /\ V1 a = Cplx v 0 /\ I1 a = Cplx i 0
    /\ P_fund a = v * i /\ Q_fund a = 0.
Proof.
  intros Hfs Hf.
  pose proof (cycles_nonneg cfg 1 Hfs Hf) as Hc.
  rewrite (analyze_run cfg [v] [i]);
    [ | discriminate | reflexivity | apply fs_nonzero; exact Hfs | exact Hc ].
  cbv zeta. eexists. split; [ reflexivity | ].
  cbn [wkFund Vrms Irms P_inst V1 I1 P_fund Q_fund List.length].
  rewrite (fundamental_bin_1 Hc). change (Z.to_nat (1 - 1)) with 0%nat.
  rewrite !windowed_1, !dft_1.
  unfold mean, sq. cbn [map times sum fold_right List.length INR Cmul conj real imag].
  split; [ reflexivity | ].
  split.
  { replace ((v * v + 0) / 1) with (Rsqr v) by (unfold Rsqr; field).
    apply sqrt_Rsqr_abs. }
  split.
  { replace ((i * i + 0) / 1) with (Rsqr i) by (unfold Rsqr; field).
    apply sqrt_Rsqr_abs. }
  split; [ field | ].
  split; [ reflexivity | ]. split; [ reflexivity | ].
  split; field.
Qed.

(** When the analysis returns. *)
Lemma analyze_ok_iff v i :
  (exists a, analyze cfg v i = Ok a)
  <-> v <> [] /\ List.length v = List.length i
      /\ ~ (SamplingRate cfg == 0)%Q
      /\ (0 <= cycles cfg (List.length v))%Z.
Proof.
  split.
  - intros [a Ha].
    destruct (analyze_shape v i a Ha) as (Hv & Hlen & Vf & If & HV & _ & _).
    split; [ exact Hv | ]. split; [ exact Hlen | ].
    unfold kFund in HV.
    destruct (Qeq_bool (SamplingRate cfg) 0) eqn:Hfs; [ discriminate HV | ].
    split.
    { intros Hz. apply Qeq_bool_iff in Hz. congruence. }
    cbn [bin] in HV. unfold index in HV.
    fold (cycles cfg (List.length v)) in HV.
    destruct (Z.of_nat (List.length v) <? cycles cfg (List.length v) + 1)%Z
      eqn:Hwrap.
    + apply Z.ltb_lt in Hwrap. lia.
    + destruct (cycles cfg (List.length v) + 1 <? 1)%Z eqn:Hlow;
        [ discriminate HV | ].
      apply Z.ltb_ge in Hlow. lia.
  - intros (Hv & Hlen & Hfs & Hc).
    rewrite (analyze_run cfg v i Hv Hlen Hfs Hc). cbv zeta. eauto.
Qed.

(** X20. The analysis returns a result exactly when the two sequences
    are non-empty and of equal length, the sampling rate is not zero and
    round(f * N / fs) is not negative.  With a sampling rate of zero every
    tick in waveform mode ends with status -1, once line 77 has returned. *)
Theorem analysis_returns_iff `{Platform} v i :
  ((exists a, analyze cfg v i = Ok a)
   <-> v <> [] /\ List.length v = List.length i
       /\ ~ (SamplingRate cfg == 0)%Q
       /\ (0 <= cycles cfg (List.length v))%Z)
  /\ (UseWaveformInput cfg = true ->
      (SamplingRate cfg == 0)%Q ->
      forall env varargin o l,
        timed o = true ->
        exists e,
          stepImpl cfg env varargin (o, l)
          = (Ok ((-1)%Z, posix_ns (nowUtc env)),
             (counted o, (l ++ [step_failure cfg e])%list))).
Proof.
  split; [ apply analyze_ok_iff | ].
  intros Hmode Hfs env varargin o l Hz.
  assert (Hm : exists e, measure cfg varargin = Raise e).
  { unfold measure. rewrite Hmode.
    destruct (index varargin 1) as [v' | e]; [ | eauto ].
    destruct (index varargin 2) as [i' | e]; [ | eauto ].
    destruct (analyze cfg v' i') as [a | e] eqn:Ha; [ | eauto ].
    exfalso.
    destruct (proj1 (analyze_ok_iff v' i')) as (_ & _ & Hnz & _); eauto. }
  destruct Hm as [e Hm]. exists e.
  rewrite (stepImpl_timed cfg env varargin o l Hz).
  rewrite (tick_invalid cfg env _ varargin _ e Hm). reflexivity.
Qed.

(** *** Scaling *)

Lemma times_scale c xs :
  forall ws, times (map (Rmult c) xs) ws = map (Rmult c) (times xs ws).
Proof.
  induction xs as [ | x xs IH ]; intros [ | w ws ]; cbn; try reflexivity.
  rewrite IH, Rmult_assoc. reflexivity.
Qed.

Lemma windowed_scale c xs :
  windowed (map (Rmult c) xs) = map (Rmult c) (windowed xs).
Proof. unfold windowed. rewrite length_map. apply times_scale. Qed.

Lemma sum_sq_scale c xs :
  sum (sq (map (Rmult c) xs)) = c * c * sum (sq xs).
Proof.
  induction xs as [ | x xs IH ]; [ cbn; ring | ].
  change (c * x * (c * x) + sum (sq (map (Rmult c) xs))
          = c * c * (x * x + sum (sq xs))).
  rewrite IH. ring.
Qed.

Lemma sum_times_scale c xs :
  forall ys, sum (times (map (Rmult c) xs) ys) = c * sum (times xs ys).
Proof.
  induction xs as [ | x xs IH ]; intros [ | y ys ];
    try (cbn; ring).
  change (c * x * y + sum (times (map (Rmult c) xs) ys)
          = c * (x * y + sum (times xs ys))).
  rewrite IH. ring.
Qed.

Lemma dft_scale c N k x :
  forall s,
    fold_right Cadd (Cplx 0 0)
      (map (fun p => Cscale (snd p) (twiddle N k (fst p)))
           (combine (seq s (List.length x)) (map (Rmult c) x)))
    = Cscale c
        (fold_right Cadd (Cplx 0 0)
           (map (fun p => Cscale (snd p) (twiddle N k (fst p)))
                (combine (seq s (List.length x)) x))).
Proof.
  induction x as [ | x0 x IH ]; intros s.
  - cbn. unfold Cscale. cbn. apply (f_equal2 Cplx); ring.
  - cbn [List.length seq map combine fold_right fst snd].
    rewrite IH. unfold Cscale, Cadd. cbn [real imag].
    apply (f_equal2 Cplx); ring.
Qed.

Lemma fft_scale c x : fft (map (Rmult c) x) = map (Cscale c) (fft x).
Proof.
  unfold fft. rewrite length_map, map_map.
  apply map_ext. intros k. unfold dft_bin. rewrite length_map.
  apply dft_scale.
Qed.

Lemma bin_scale c x k z :
  bin (fft x) k = Ok z -> bin (fft (map (Rmult c) x)) k = Ok (Cscale c z).
Proof.
  rewrite fft_scale. destruct k as [ k | ]; cbn [bin]; [ | discriminate ].
  unfold index. destruct (k <? 1)%Z; [ discriminate | ].
  rewrite nth_error_map.
  destruct (nth_error (fft x) _); [ | discriminate ].
  intros [= ->]. reflexivity.
Qed.

Lemma Cabs_scale c z : Cabs (Cscale c z) = Rabs c * Cabs z.
Proof.
  unfold Cabs, Cscale. cbn [real imag].
  replace (c * real z * (c * real z) + c * imag z * (c * imag z))
    with (Rsqr c * (real z * real z + imag z * imag z))
    by (unfold Rsqr; ring).
  rewrite sqrt_mult.
  - rewrite sqrt_Rsqr_abs. reflexivity.
  - apply Rle_0_sqr.
  - pose proof (Rle_0_sqr (real z)) as H1.
    pose proof (Rle_0_sqr (imag z)) as H2. unfold Rsqr in *. lra.
Qed.

(** The analysis under a scaling of the voltage, in exact arithmetic. *)
Lemma analyze_scaled c v i a :
  analyze cfg v i = Ok a ->
  exists b,
    analyze cfg (map (Rmult c) v) i = Ok b
    /\ Vrms b = Rabs c * Vrms a
    /\ Irms b = Irms a
    /\ P_inst b = c * P_inst a
    /\ P_fund b = c * P_fund a
    /\ Q_fund b = c * Q_fund a
    /\ S b = Rabs c * S a.
Proof.
  intros Ha.
  destruct (analyze_shape v i a Ha) as (Hv & Hlen & Vf & If & HV & HI & ->).
  pose proof (samples_pos v Hv) as Hn.
  assert (Hcv : map (Rmult c) v <> []) by (destruct v; [ congruence | discriminate ]).
  rewrite (analyze_reading (map (Rmult c) v) i Hcv)
    by (rewrite length_map; exact Hlen).
  rewrite windowed_scale, length_map.
  rewrite (bin_scale c _ _ _ HV), HI.
  eexists. split; [ reflexivity | ].
  cbn [reading Vrms Irms P_inst P_fund Q_fund S].
  rewrite windowed_scale, length_map, Cabs_scale.
  set (n := INR (List.length v)) in *.
  assert (Hlv : List.length (windowed v) = List.length v)
    by apply windowed_length.
  assert (Hli : List.length (windowed i) = List.length v)
    by (unfold windowed; rewrite windowed_length; congruence).
  assert (Hlt : List.length (times (windowed v) (windowed i)) = List.length v)
    by (rewrite times_length; congruence).
  unfold mean.
  rewrite sum_sq_scale, sum_times_scale, times_scale.
  rewrite !sq_length, !length_map, Hlv, Hli, Hlt. fold n.
  pose proof sqrt2_pos as H2pos.
  split.
  { replace (c * c * sum (sq (windowed v)) / n)
      with (Rsqr c * (sum (sq (windowed v)) / n))
      by (unfold Rsqr; field; lra).
    rewrite sqrt_mult.
    - rewrite sqrt_Rsqr_abs. reflexivity.
    - apply Rle_0_sqr.
    - apply Rmult_le_pos; [ apply sum_sq_nonneg | ].
      apply Rlt_le, Rinv_0_lt_compat. exact Hn. }
  split; [ reflexivity | ].
  split; [ field; lra | ].
  cbn [Cmul Cscale conj real imag].
  split; [ field; lra | ].
  split; [ field; lra | ].
  field. lra.
Qed.

(** X21. Reversing the polarity of the voltage, that is negating every
    voltage sample, keeps the two RMS values and the apparent power and
    changes the sign of the active powers and of the reactive power. *)
Theorem reversing_the_voltage v i a :
  analyze cfg v i = Ok a ->
  exists b,
    analyze cfg (map Ropp v) i = Ok b
    /\ Vrms b = Vrms a
    /\ Irms b = Irms a
    /\ P_inst b = - P_inst a
    /\ P_fund b = - P_fund a
    /\ Q_fund b = - Q_fund a
    /\ S b = S a.
Proof.
  intros Ha.
  destruct (analyze_scaled (-1) v i a Ha)
    as (b & Hb & HV & HI & HP & HPf & HQ & HS).
  assert (Hneg : map Ropp v = map (Rmult (-1)) v)
    by (apply map_ext; intros x; ring).
  assert (Hone : Rabs (-1) = 1)
    by (unfold Rabs; destruct (Rcase_abs (-1)); lra).
  rewrite Hone in HV, HS.
  exists b. rewrite Hneg. split; [ exact Hb | ].
  repeat split; lra.
Qed.

End Quantities.

(** ** The rates of the configuration *)

Section Rates.

Local Open Scope R_scope.

(** X23. The sampling rate and the nominal frequency reach the analysis
    through the bin of the fundamental alone: two configurations that both
    analyse a window agree on its length, its two RMS values and its active
    power, and on everything when they read the same bin. *)
Theorem total_quantities_ignore_the_rates cfg1 cfg2 v i a1 a2 :
  analyze cfg1 v i = Ok a1 ->
  analyze cfg2 v i = Ok a2 ->
  wN a1 = wN a2
  /\ Vrms a1 = Vrms a2 /\ Irms a1 = Irms a2
  /\ P_inst a1 = P_inst a2
  /\ (wkFund a1 = wkFund a2 -> a1 = a2).
Proof.
  intros H1 H2.
  destruct (analyze_shape cfg1 v i a1 H1) as (_ & _ & V & I & HV & HI & ->).
  destruct (analyze_shape cfg2 v i a2 H2) as (_ & _ & V' & I' & HV' & HI' & ->).
  cbn [reading wN Vrms Irms P_inst wkFund].
  repeat (split; [ reflexivity | ]).
  intros Hk. rewrite <- Hk in HV', HI'.
  assert (V' = V) by congruence. assert (I' = I) by congruence. subst.
  unfold reading. rewrite Hk. reflexivity.
Qed.

End Rates.

(** ** Concrete runs *)

Import Bench.

(** C2, as stated, fails: a window of one sample is below the guard of two
    samples that the specification asks for, and the analysis accepts it. *)
Lemma one_sample_window_is_analysed :
  (List.length [230%R] < 2)%nat
  /\ exists a, analyze defaults [230%R] [5%R] = Ok a /\ wN a = 1%nat.
Proof.
  split; [ cbn; lia | ].
  eexists. split; reflexivity.
Qed.

(** C4, as stated, fails.  At 50 Hz, 4800 Hz and 96 samples the one-based
    bin of the specification is round(50 * 96 / 4800) = 1, and the analysis
    reads the one-based bin 2.  At 50 Hz, 200 Hz and the four samples
    0, 1, 1, 0 of voltage and of current the specification's bin is again 1
    and the bin read is 2; the analysis reports P_fund = 9/128, where the
    specification's bin would give 9/64. *)
Lemma fundamental_bin_is_one_more :
  spec_bin defaults 96 = 1
  /\ (exists a,
        analyze defaults (repeat 1%R 96) (repeat 1%R 96) = Ok a
        /\ wkFund a = Some 2
        /\ wkFund a <> Some (spec_bin defaults (wN a)))
  /\ spec_bin quarter 4 = 1
  /\ (exists a,
        analyze quarter [0; 1; 1; 0]%R [0; 1; 1; 0]%R = Ok a
        /\ wkFund a = Some 2
        /\ P_fund a = (9 / 128)%R
        /\ (real (Cmul (dft_bin (windowed [0; 1; 1; 0]%R)
                          (Z.to_nat (spec_bin quarter 4 - 1)))
                       (conj (dft_bin (windowed [0; 1; 1; 0]%R)
                                (Z.to_nat (spec_bin quarter 4 - 1)))))
            / INR 4 ^ 2 = 9 / 64)%R).
Proof.
  split; [ reflexivity | ].
  split.
  { eexists. split; [ reflexivity | ].
    split; [ reflexivity | discriminate ]. }
  split; [ reflexivity | ].
  eexists. split.
  { apply (analyze_run quarter [0; 1; 1; 0]%R [0; 1; 1; 0]%R);
      [ discriminate | reflexivity | discriminate | discriminate ]. }
  cbv zeta. cbn [wkFund P_fund].
  split; [ reflexivity | ].
  change (Z.to_nat (fundamental_bin quarter (List.length [0; 1; 1; 0]%R) - 1))
    with 1%nat.
  change (Z.to_nat (spec_bin quarter 4 - 1)) with 0%nat.
  rewrite windowed_4, dft_4_bin_0, dft_4_bin_1.
  cbn [Cmul conj real imag List.length INR]. split; field.
Qed.


(** C6, as stated, fails.  After construction and setup the block has an
    established session; a send on it whose write is reset by the peer
    raises, the block is still connected, and the next send writes to the
    transport again and returns.  And past line 77, on the platform that
    subtracts the two datetimes, a tick whose write fails returns -1 and
    leaves the block connected, and the next due tick writes again and is
    sent. *)
Lemma session_survives_send_error :
  (IsConnected (object (setupImpl defaults (at_second 0) (constructed, [])))
   = true
   /\ returned (sendToTelegraf defaults (write_failing 10) "reading"
                  (snd (setupImpl defaults (at_second 0) (constructed, []))))
      = Raise (ME "Failed to send data to Telegraf: Connection reset by peer")
   /\ IsConnected
        (object (sendToTelegraf defaults (write_failing 10) "reading"
                   (snd (setupImpl defaults (at_second 0) (constructed, [])))))
      = true
   /\ returned
        (sendToTelegraf defaults (at_second 11) "reading"
           (snd (sendToTelegraf defaults (write_failing 10) "reading"
                   (snd (setupImpl defaults (at_second 0) (constructed, []))))))
      = Ok tt
   /\ List.length
        (filter is_write
           (logged
              (sendToTelegraf defaults (at_second 11) "reading"
                 (snd (sendToTelegraf defaults (write_failing 10) "reading"
                         (snd (setupImpl defaults (at_second 0)
                                 (constructed, []))))))))
      = 2%nat)
  /\ (returned (@stepImpl lenient defaults (write_failing 10) window
                  (snd (setupImpl defaults (at_second 0) (constructed, []))))
      = Ok (-1, 10000000000)
      /\ IsConnected
           (object (@stepImpl lenient defaults (write_failing 10) window
                      (snd (setupImpl defaults (at_second 0) (constructed, [])))))
         = true
      /\ returned
           (@stepImpl lenient defaults (at_second 11) window
              (snd (@stepImpl lenient defaults (write_failing 10) window
                      (snd (setupImpl defaults (at_second 0) (constructed, []))))))
         = Ok (1, 11000000000)
      /\ List.length
           (filter is_write
              (logged
                 (@stepImpl lenient defaults (at_second 11) window
                    (snd (@stepImpl lenient defaults (write_failing 10) window
                            (snd (setupImpl defaults (at_second 0)
                                    (constructed, []))))))))
         = 2%nat).
Proof. repeat split; lazy; reflexivity. Qed.

(** C1's failing input: the first tick of a new block, and the first tick
    after a reset of a block that had sent. *)
Lemma first_tick_raises_witness :
  stepImpl defaults (at_second 10) window (constructed, [])
  = (Raise incompatible_zones, (counted constructed, []))
  /\ stepImpl defaults (at_second 10) window (snd (resetImpl (connected, [])))
     = (Raise incompatible_zones,
        ({| TcpClient := Some session;
            LastSendTime := epoch;
            SampleCount := 1;
            IsConnected := true |}, [])).
Proof.
  split.
  - exact (proj1 (first_tick_raises defaults (at_second 10) window [] eq_refl)).
  - exact (proj1 (proj2 (first_tick_raises defaults (at_second 10) window []
                           eq_refl))
             connected []).
Defined.

(** C2 (amended) on a window of four samples. *)
Lemma window_validation_witness :
  exists a,
    analyze defaults [0; 325; 0; -325]%R [0; 10; 0; -10]%R = Ok a
    /\ wN a = 4%nat.
Proof.
  apply (window_validation defaults [0; 325; 0; -325]%R [0; 10; 0; -10]%R);
    [ discriminate | reflexivity | reflexivity | discriminate ].
Defined.


(** C4 (amended) on a window of four samples: the bin read is the first. *)
Lemma fundamental_phasors_witness :
  exists a k,
    analyze defaults [0; 325; 0; -325]%R [0; 10; 0; -10]%R = Ok a
    /\ wkFund a = Some k
    /\ 1 <= k <= 4.
Proof.
  destruct (fundamental_phasors defaults [0; 325; 0; -325]%R [0; 10; 0; -10]%R)
    as (a & k & Hrun & Hk & _ & Hrange & _);
    [ discriminate | reflexivity | reflexivity | discriminate | ].
  exists a, k. repeat split; [ exact Hrun | exact Hk | apply Hrange | apply Hrange ].
Defined.

(** C5's failing input: construction, a setup whose connection is
    refused, and the first tick. *)
Lemma unopened_session_tick_raises_witness :
  IsConnected (object (setupImpl defaults (refusing 0) (constructed, []))) = false
  /\ stepImpl defaults (at_second 0) window
       (snd (setupImpl defaults (refusing 0) (constructed, [])))
     = (Raise incompatible_zones,
        (counted (object (setupImpl defaults (refusing 0) (constructed, []))),
         logged (setupImpl defaults (refusing 0) (constructed, [])))).
Proof.
  destruct (proj1 (proj2 (@unopened_session_tick_raises platform defaults eq_refl))
              (refusing 0))
    as [Hcon Hrun]; [ right; discriminate | ].
  split; [ exact Hcon | apply Hrun ].
Defined.

(** C6 (amended) after construction and setup, on a send whose write is
    reset by the peer. *)
Lemma send_error_keeps_session_witness :
  sendToTelegraf defaults (write_failing 10) "reading"
    (snd (setupImpl defaults (at_second 0) (constructed, [])))
  = (Raise (ME "Failed to send data to Telegraf: Connection reset by peer"),
     (object (setupImpl defaults (at_second 0) (constructed, [])),
      (logged (setupImpl defaults (at_second 0) (constructed, []))
       ++ [write session (uint8 "reading") None])%list)).
Proof.
  exact (proj1 (send_error_keeps_session defaults (write_failing 10) "reading"
                  (object (setupImpl defaults (at_second 0) (constructed, [])))
                  (logged (setupImpl defaults (at_second 0) (constructed, [])))
                  session None (ME "Connection reset by peer")
                  eq_refl eq_refl eq_refl)).
Defined.

(** C7 on a tick whose write fails, and on the first tick of a new block. *)
Lemma last_send_time_only_on_success_witness :
  LastSendTime (object (stepImpl defaults (write_failing 10) window (connected, [])))
  = utc 0
  /\ LastSendTime (object (stepImpl defaults (at_second 10) window (connected, [])))
     = utc 10000000000
  /\ LastSendTime (object (stepImpl defaults (at_second 10) window (constructed, [])))
     = epoch.
Proof.
  split; [ | split ].
  - exact (proj1 (last_send_time_only_on_success defaults (write_failing 10)
                    window connected [])).
  - exact (proj1 (last_send_time_only_on_success defaults (at_second 10)
                    window connected [])).
  - exact (proj1 (last_send_time_only_on_success defaults (at_second 10)
                    window constructed [])).
Defined.

(** C8 on a block that signs: construction, setup and the first tick, on
    the platform that gets past line 77. *)
Lemma transmitted_bytes_witness :
  hex (repeat xa5 32)
  = "a5a5a5a5a5a5a5a5a5a5a5a5a5a5a5a5a5a5a5a5a5a5a5a5a5a5a5a5a5a5a5a5"
  /\ exists evs,
       logged (@stepImpl lenient signing (at_second 0) window
                 (snd (setupImpl signing (at_second 0)
                         (constructed, []))))
       = (logged (setupImpl signing (at_second 0) (constructed, []))
          ++ write session
               (list_byte_of_string
                  "payload=%s\n%s\n%s\n;hmac=a5a5a5a5a5a5a5a5a5a5a5a5a5a5a5a5a5a5a5a5a5a5a5a5a5a5a5a5a5a5a5a5;meter_id=METER_001;timestamp_ns=0")
               None :: evs)%list.
Proof.
  split.
  - exact (proj2 (proj2
             (proj2 (proj1 (proj2 (@transmitted_bytes lenient signing "" 0))
                       ltac:(discriminate))
                (repeat xa5 32) eq_refl))).
  - destruct (proj2 (proj2 (proj2
                (@transmitted_bytes lenient signing "" 0)))
                (at_second 0) window
                (object (setupImpl signing (at_second 0)
                           (constructed, [])))
                (logged (setupImpl signing (at_second 0)
                           (constructed, [])))
                _ _ _ session None
                eq_refl eq_refl eq_refl eq_refl eq_refl eq_refl
                eq_refl eq_refl)
      as (evs & Hlog & _).
    exists evs. exact Hlog.
Defined.

(** C10 on three ticks, and on the first tick of a new block. *)
Lemma counter_counts_every_tick_witness :
  SampleCount (object (steps defaults [(at_second 0, window);
                                       (at_second 1, [[]; []]);
                                       (at_second 2, [])] (connected, [])))
  = 3
  /\ SampleCount (object (stepImpl defaults (at_second 0) window (constructed, [])))
     = 1.
Proof.
  split.
  - exact (proj1 (proj2 (counter_counts_every_tick defaults (at_second 0) window
                           connected []))
             eq_refl
             [(at_second 0, window); (at_second 1, [[]; []]); (at_second 2, [])]).
  - exact (proj1 (counter_counts_every_tick defaults (at_second 0) window
                    constructed [])).
Defined.

(** The body's exceptions on a tick whose transport write fails. *)
Lemma body_exceptions_are_caught_witness :
  exists s o' l',
    stepImpl defaults (write_failing 3) window (connected, [])
    = (Ok (s, 3000000000), (o', l'))
    /\ (s = 1 \/ s = 0 \/ s = -1).
Proof.
  destruct (body_exceptions_are_caught defaults (write_failing 3) window
              connected [] eq_refl)
    as (s & o' & l' & Hrun & Hs & _).
  exists s, o', l'. split; [ exact Hrun | exact Hs ].
Defined.

(** X4 after a setup that connected. *)
Lemma connected_has_session_witness :
  exists dest,
    TcpClient (object (setupImpl defaults (at_second 0) (constructed, [])))
    = Some session
    /\ destination defaults = Some dest.
Proof.
  destruct (proj2 (proj2
              (connected_has_session defaults
                 (snd (setupImpl defaults (at_second 0) (constructed, [])))
                 (reach_setup defaults (at_second 0) _
                    (reach_constructed defaults))))
              eq_refl)
    as (c & dest & Hcfg & Hcl & Hdest & _).
  exists dest. split; [ | exact Hdest ].
  injection Hcfg as <-. exact Hcl.
Defined.

(** X6 on a setup that connects, and the first tick after it. *)
Lemma setup_then_first_tick_witness :
  returned (stepImpl defaults (at_second 0) window
              (snd (setupImpl defaults (at_second 0) (unopened, []))))
  = Ok (1, 0).
Proof.
  destruct (proj2 (setup_then_first_tick defaults (at_second 0) (at_second 0)
                     window unopened [] _ eq_refl eq_refl eq_refl)
              eq_refl _ _ eq_refl eq_refl eq_refl)
    as (c & dest & _ & _ & Hrun).
  rewrite Hrun. reflexivity.
Defined.

(** X8 on two due ticks of a block without a session. *)
Lemma disconnected_block_never_sends_witness :
  exists ys o' evs,
    steps defaults [(at_second 0, window); (at_second 5, window)] (unopened, [])
    = (Ok ys, (o', evs))
    /\ existsb is_write evs = false.
Proof.
  destruct (disconnected_block_never_sends defaults
              [(at_second 0, window); (at_second 5, window)]
              unopened [] eq_refl eq_refl)
    as (ys & o' & evs & Hrun & _ & _ & Hw & _).
  exists ys, o', evs. split; [ exact Hrun | exact Hw ].
Defined.

(** X9 on the platform that refuses the names. *)
Lemma dlms_names_are_refused_witness :
  exists e,
    @encode strict (configured "tcp" "dlms" true "none") sample 0 = Raise e.
Proof.
  exact (proj1 (@dlms_names_are_refused strict
                  (configured "tcp" "dlms" true "none") eq_refl eq_refl)
           sample 0).
Defined.

(** X10 on the platform that accepts every name. *)
Lemma dlms_payload_shape_witness :
  exists m,
    measure (configured "tcp" "dlms" true "none") window = Ok m
    /\ encode (configured "tcp" "dlms" true "none") m 0
       = Ok "meter_id,node_type,timestamp_ns,measurements,aggregates,meta".
Proof.
  eexists. split; [ reflexivity | ].
  exact (dlms_payload_shape (configured "tcp" "dlms" true "none") window _ 0
           eq_refl eq_refl eq_refl).
Defined.

(** X13 on two meters. *)
Lemma influx_message_is_anonymous_witness :
  exists payload,
    encode defaults sample 0 = Ok payload
    /\ encode other_meter sample 0 = Ok payload.
Proof.
  destruct (influx_message_is_anonymous defaults other_meter sample sample 0
              eq_refl eq_refl eq_refl)
    as (payload & H1 & H2 & _).
  exists payload. split; [ exact H1 | exact H2 ].
Defined.

(** X15 on a window of four samples. *)
Lemma window_lowers_rms_witness :
  exists a,
    analyze defaults [0; 325; 0; -325]%R [0; 10; 0; -10]%R = Ok a
    /\ (Vrms a <= rms [0; 325; 0; -325])%R.
Proof.
  eexists. split; [ reflexivity | ].
  exact (proj1 (proj2 (proj2
           (window_lowers_rms defaults [0; 325; 0; -325]%R
              [0; 10; 0; -10]%R _ eq_refl)))).
Defined.

(** X16 on a window of one sample. *)
Lemma exchanging_the_inputs_witness :
  exists a b,
    analyze defaults [230%R] [5%R] = Ok a
    /\ analyze defaults [5%R] [230%R] = Ok b
    /\ Q_fund b = (- Q_fund a)%R.
Proof.
  eexists.
  destruct (exchanging_the_inputs defaults [230%R] [5%R] _ eq_refl)
    as (b & Hb & _ & _ & _ & _ & HQ & _).
  exists b. split; [ reflexivity | ]. split; [ exact Hb | exact HQ ].
Defined.

(** X17 on a window of two samples. *)
Lemma two_sample_window_reads_zero_witness :
  exists a,
    analyze defaults [325; -325]%R [10; -10]%R = Ok a
    /\ Vrms a = 0%R /\ P_inst a = 0%R.
Proof.
  eexists. split; [ reflexivity | ].
  destruct (two_sample_window_reads_zero defaults 325 (-325) 10 (-10) _ eq_refl)
    as (HV & _ & HP & _).
  split; [ exact HV | exact HP ].
Defined.

(** X18 on a window of three samples. *)
Lemma window_ends_are_ignored_witness :
  analyze defaults [0; 325; 0]%R [0; 10; 0]%R
  = analyze defaults [99; 325; 0]%R [77; 10; 0]%R.
Proof.
  apply (window_ends_are_ignored defaults [325; 0]%R [10; 0]%R 0 99 0 77);
    discriminate.
Defined.

(** X19 under the defaults. *)
Lemma one_sample_window_witness :
  exists a,
    analyze defaults [230%R] [5%R] = Ok a
    /\ P_inst a = (230 * 5)%R /\ Q_fund a = 0%R.
Proof.
  destruct (one_sample_window defaults 230 5)
    as (a & Ha & _ & _ & _ & HP & _ & _ & _ & HQ);
    [ reflexivity | discriminate | ].
  exists a. split; [ exact Ha | ]. split; [ exact HP | exact HQ ].
Defined.

(** X21 on a window of one sample. *)
Lemma reversing_the_voltage_witness :
  exists a b,
    analyze defaults [230%R] [5%R] = Ok a
    /\ analyze defaults (map Ropp [230%R]) [5%R] = Ok b
    /\ P_inst b = (- P_inst a)%R.
Proof.
  eexists.
  destruct (reversing_the_voltage defaults [230%R] [5%R] _ eq_refl)
    as (b & Hb & _ & _ & HP & _).
  exists b. split; [ reflexivity | ]. split; [ exact Hb | exact HP ].
Defined.

(** X22 on a send, two ticks that come too early, and the next send. *)
Lemma sends_are_spaced_witness :
  (SendInterval every_5s <= seconds (clock (at_second 6) - clock (at_second 0)))%Q.
Proof.
  refine (proj1 (sends_are_spaced every_5s (at_second 0) window connected [] _
                   [(at_second 1, window); (at_second 2, window)] _ _
                   (at_second 6) window _
                   eq_refl _ eq_refl eq_refl _ eq_refl)).
  - cbn. lia.
  - repeat constructor; discriminate.
Defined.

(** X23 at two sampling rates. *)
Lemma total_quantities_ignore_the_rates_witness :
  exists a1 a2,
    analyze defaults [230%R] [5%R] = Ok a1
    /\ analyze quarter [230%R] [5%R] = Ok a2
    /\ P_inst a1 = P_inst a2.
Proof.
  do 2 eexists. split; [ reflexivity | ]. split; [ reflexivity | ].
  exact (proj1 (proj2 (proj2 (proj2
           (total_quantities_ignore_the_rates defaults quarter
              [230%R] [5%R] _ _ eq_refl eq_refl))))).
Defined.
